(** * Telemetry application (src/app.c): buffer-pool handoff between the ADC
    sampler and the Bluetooth streamer, the accelerometer mailbox, the
    acknowledgment time-out and the sample-period configuration.

    The task bodies of [app.c] are embedded as functions in a small
    state-and-output monad over [app_type]; what a task reads from the outside
    world in one iteration (the ADC value, whether the reply semaphore is given
    before the time-out, the result of [config_write], the accelerometer
    reading, the debounced buttons) is an argument of the iteration. *)

From Stdlib Require Import ZArith Lia List String Bool.
From Corelib Require Import SpecFloat.
From stdpp Require Import base list.

Import ListNotations.
Local Open Scope Z_scope.

(** ** C [float]: IEEE 754 binary32, round to nearest even *)

Definition float : Type := spec_float.
Definition float_prec : Z := 24.
Definition float_emax : Z := 128.

Definition float_mul (x y : float) : float := SFmul float_prec float_emax x y.

(** Conversion of an integer to [float], as in the promotion of [buf[i]]
    (a [uint8_t]) in [buf[i] * mult]. *)
Definition float_of_Z (z : Z) : float :=
  binary_normalize float_prec float_emax z 0 false.

Definition float_zero : float := S754_zero false.

Definition vec3 : Type := float * float * float.

(** ** The FreeRTOS primitives used by app.c

    [queue.c] and [semphr.h] belong to the FreeRTOS kernel, not to this
    application; the definitions follow the kernel's documented behaviour for
    the calls app.c makes. *)
Module FreeRTOS.

Record Queue (A : Type) : Type := mkQueue {
  uxLength : nat;          (* capacity given to xQueueCreate *)
  items : list A           (* waiting messages, oldest first *)
}.
Arguments mkQueue {A} _ _.
Arguments uxLength {A} _.
Arguments items {A} _.

Definition xQueueCreate {A : Type} (uxQueueLength : nat) : Queue A :=
  mkQueue uxQueueLength [].

(** [xQueueSendToBack(q, item, 0)]: posts at the back when there is room;
    with a zero block time a full queue is left untouched and the call
    returns errQUEUE_FULL ([false]). *)
Definition xQueueSendToBack {A : Type} (q : Queue A) (item : A)
  : Queue A * bool :=
  if Nat.ltb (length (items q)) (uxLength q)
  then (mkQueue (uxLength q) (items q ++ [item]), true)
  else (q, false).

(** [xQueueReceive(q, &item, 0)]: removes the oldest message, or fails at
    once on an empty queue. *)
Definition xQueueReceive {A : Type} (q : Queue A) : option A * Queue A :=
  match items q with
  | [] => (None, q)
  | x :: rest => (Some x, mkQueue (uxLength q) rest)
  end.

(** A binary semaphore is a flag; [xSemaphoreCreateBinary] creates it
    empty. *)
Definition SemaphoreHandle_t : Type := bool.
Definition xSemaphoreCreateBinary : SemaphoreHandle_t := false.

(** [xSemaphoreGive]: the flag is set (giving a semaphore that is already
    available fails and leaves it available). *)
Definition xSemaphoreGive (s : SemaphoreHandle_t) : SemaphoreHandle_t := true.

(** [xSemaphoreTake(s, ticks)]: succeeds when the flag is set on entry or
    is given by another task before the block time expires
    ([given_in_time]; [false] for a zero block time); the flag is clear
    afterwards. *)
Definition xSemaphoreTake (s : SemaphoreHandle_t) (given_in_time : bool)
  : SemaphoreHandle_t * bool :=
  (false, s || given_in_time).

End FreeRTOS.
Import FreeRTOS.

(** ** Buffer pool *)

(** A buffer is named by its slot in [buffer_queue_mem]; [NULL] is [None]. *)
Definition buffer : Type := nat.

(** Modelled from the spec: the [buffer_queue] type of buffer_queue.h, which
    is not among the sources.  The four disjoint sets of the spec; [bq_free]
    and [bq_queued] are kept in arrival order, oldest first. *)
Record buffer_queue : Type := mkBufferQueue {
  bq_free : list buffer;
  bq_queued : list buffer;
  bq_producer : list buffer;
  bq_consumer : list buffer
}.

(** Removes the first occurrence of [b]; [None] when [b] is not in the list. *)
Fixpoint remove_first (b : buffer) (l : list buffer) : option (list buffer) :=
  match l with
  | [] => None
  | x :: rest =>
      if Nat.eqb x b then Some rest
      else match remove_first b rest with
           | Some rest' => Some (x :: rest')
           | None => None
           end
  end.

(** Modelled from the spec: [buffer_queue_init], all [n] buffers start Free. *)
Definition buffer_queue_init (n : nat) : buffer_queue :=
  mkBufferQueue (seq 0 n) [] [] [].

(** Modelled from the spec: [acquire_free], here with the zero time-out of its
    only call: a Free buffer becomes CheckedOutProducer, or none is returned. *)
Definition buffer_queue_get_avail (q : buffer_queue)
  : option buffer * buffer_queue :=
  match bq_free q with
  | [] => (None, q)
  | b :: rest =>
      (Some b, mkBufferQueue rest (bq_queued q) (b :: bq_producer q) (bq_consumer q))
  end.

(** Modelled from the spec: [enqueue_full], a CheckedOutProducer buffer joins
    the back of Queued; a buffer the producer does not hold is refused. *)
Definition buffer_queue_push (q : buffer_queue) (b : buffer) : buffer_queue :=
  match remove_first b (bq_producer q) with
  | Some rest => mkBufferQueue (bq_free q) (bq_queued q ++ [b]) rest (bq_consumer q)
  | None => q
  end.

(** Modelled from the spec: [acquire_full], the oldest Queued buffer becomes
    CheckedOutConsumer; none when nothing is Queued when the wait ends. *)
Definition buffer_queue_get_inuse (q : buffer_queue)
  : option buffer * buffer_queue :=
  match bq_queued q with
  | [] => (None, q)
  | b :: rest =>
      (Some b, mkBufferQueue (bq_free q) rest (bq_producer q) (b :: bq_consumer q))
  end.

(** Modelled from the spec: [release], a CheckedOutConsumer buffer goes back to
    Free; a buffer the consumer side does not hold is refused. *)
Definition buffer_queue_return (q : buffer_queue) (b : buffer) : buffer_queue :=
  match remove_first b (bq_consumer q) with
  | Some rest => mkBufferQueue (bq_free q ++ [b]) (bq_queued q) (bq_producer q) rest
  | None => q
  end.

(** ** Application state *)

(** Modelled from the spec: the debounced input of debouncer.h, reduced to
    what app.c asks of it, the edge flag and the stabilized level. *)
Record debouncer : Type := mkDebouncer {
  debouncer_is_edge : bool;
  debouncer_is_hi : bool
}.

Record config_type : Type := mkConfig { sample_period : Z }.

(** The fields of [app_type] that app.c uses, and [buffer_queue_mem], the
    static memory the pool hands out, one byte list per slot.  The C types of
    [samples_in_buffer] and [sample_period] are declared in app.h and
    config.h; they are integers here, and the guards of [adc_update] and
    [config_update] keep them within [0, APP_DATA_BUF_SIZE] and between the
    two rate bounds, where no wrap-around occurs as long as those constants
    fit the types. *)
Record app_type : Type := mkApp {
  data_queue : buffer_queue;
  current_buffer : option buffer;
  samples_in_buffer : Z;
  config : config_type;
  config_sd_present : bool;
  accel : vec3;
  queue_mpu : Queue vec3;
  semaphore_config : SemaphoreHandle_t;
  semaphore_error : SemaphoreHandle_t;
  semaphore_reply : SemaphoreHandle_t;
  button_left : debouncer;
  button_right : debouncer;
  button_up : debouncer;
  button_down : debouncer;
  buffer_queue_mem : list (list Z)
}.

Definition set_data_queue (v : buffer_queue) (a : app_type) : app_type :=
  mkApp v (current_buffer a) (samples_in_buffer a) (config a)
    (config_sd_present a) (accel a) (queue_mpu a) (semaphore_config a)
    (semaphore_error a) (semaphore_reply a) (button_left a) (button_right a)
    (button_up a) (button_down a) (buffer_queue_mem a).

Definition set_current_buffer (v : option buffer) (a : app_type) : app_type :=
  mkApp (data_queue a) v (samples_in_buffer a) (config a)
    (config_sd_present a) (accel a) (queue_mpu a) (semaphore_config a)
    (semaphore_error a) (semaphore_reply a) (button_left a) (button_right a)
    (button_up a) (button_down a) (buffer_queue_mem a).

Definition set_samples_in_buffer (v : Z) (a : app_type) : app_type :=
  mkApp (data_queue a) (current_buffer a) v (config a)
    (config_sd_present a) (accel a) (queue_mpu a) (semaphore_config a)
    (semaphore_error a) (semaphore_reply a) (button_left a) (button_right a)
    (button_up a) (button_down a) (buffer_queue_mem a).

Definition set_config (v : config_type) (a : app_type) : app_type :=
  mkApp (data_queue a) (current_buffer a) (samples_in_buffer a) v
    (config_sd_present a) (accel a) (queue_mpu a) (semaphore_config a)
    (semaphore_error a) (semaphore_reply a) (button_left a) (button_right a)
    (button_up a) (button_down a) (buffer_queue_mem a).

Definition set_config_sd_present (v : bool) (a : app_type) : app_type :=
  mkApp (data_queue a) (current_buffer a) (samples_in_buffer a) (config a)
    v (accel a) (queue_mpu a) (semaphore_config a)
    (semaphore_error a) (semaphore_reply a) (button_left a) (button_right a)
    (button_up a) (button_down a) (buffer_queue_mem a).

Definition set_accel (v : vec3) (a : app_type) : app_type :=
  mkApp (data_queue a) (current_buffer a) (samples_in_buffer a) (config a)
    (config_sd_present a) v (queue_mpu a) (semaphore_config a)
    (semaphore_error a) (semaphore_reply a) (button_left a) (button_right a)
    (button_up a) (button_down a) (buffer_queue_mem a).

Definition set_queue_mpu (v : Queue vec3) (a : app_type) : app_type :=
  mkApp (data_queue a) (current_buffer a) (samples_in_buffer a) (config a)
    (config_sd_present a) (accel a) v (semaphore_config a)
    (semaphore_error a) (semaphore_reply a) (button_left a) (button_right a)
    (button_up a) (button_down a) (buffer_queue_mem a).

Definition set_buttons (l r u d : debouncer) (a : app_type) : app_type :=
  mkApp (data_queue a) (current_buffer a) (samples_in_buffer a) (config a)
    (config_sd_present a) (accel a) (queue_mpu a) (semaphore_config a)
    (semaphore_error a) (semaphore_reply a) l r u d (buffer_queue_mem a).

Definition set_buffer_queue_mem (v : list (list Z)) (a : app_type) : app_type :=
  mkApp (data_queue a) (current_buffer a) (samples_in_buffer a) (config a)
    (config_sd_present a) (accel a) (queue_mpu a) (semaphore_config a)
    (semaphore_error a) (semaphore_reply a) (button_left a) (button_right a)
    (button_up a) (button_down a) v.

(** The three binary semaphores of [app_type]. *)
Inductive semaphore_id : Type := SemConfig | SemError | SemReply.

Definition get_semaphore (s : semaphore_id) (a : app_type) : SemaphoreHandle_t :=
  match s with
  | SemConfig => semaphore_config a
  | SemError => semaphore_error a
  | SemReply => semaphore_reply a
  end.

Definition set_semaphore (s : semaphore_id) (v : SemaphoreHandle_t)
  (a : app_type) : app_type :=
  mkApp (data_queue a) (current_buffer a) (samples_in_buffer a) (config a)
    (config_sd_present a) (accel a) (queue_mpu a)
    (match s with SemConfig => v | _ => semaphore_config a end)
    (match s with SemError => v | _ => semaphore_error a end)
    (match s with SemReply => v | _ => semaphore_reply a end)
    (button_left a) (button_right a)
    (button_up a) (button_down a) (buffer_queue_mem a).

(** ** Calls to the outside world, and the monad of a task body *)

Inductive led_id : Type := LED_1 | LED_2 | LED_3.

(** What one iteration of a task does to its collaborators, in program
    order. *)
Inductive event : Type :=
| EvBluetoothWrite (v : float)             (* bluetooth_write(v) *)
| EvSemaphoreGive (s : semaphore_id)       (* xSemaphoreGive(app->semaphore_s) *)
| EvConfigWrite (c : config_type)          (* config_write(file, &app->config) *)
| EvMessagesPrint (msg : string)           (* messages_print(msg) *)
| EvBoardLEDSet (l : led_id) (on : bool).  (* Board_LED_Set(l, on) *)

(** The outcome of a task body: its value, the new state and the calls it
    made, or [Fault] when it touches a buffer outside its bounds. *)
Inductive result (A : Type) : Type :=
| Ok (a : A) (app : app_type) (out : list event)
| Fault.
Arguments Ok {A} _ _ _.
Arguments Fault {A}.

Definition M (A : Type) : Type := app_type -> result A.

Definition ret {A : Type} (a : A) : M A := fun s => Ok a s [].

Definition bind {A B : Type} (m : M A) (f : A -> M B) : M B :=
  fun s =>
    match m s with
    | Ok a s1 o1 =>
        match f a s1 with
        | Ok b s2 o2 => Ok b s2 (o1 ++ o2)
        | Fault => Fault
        end
    | Fault => Fault
    end.

Definition gets {A : Type} (f : app_type -> A) : M A := fun s => Ok (f s) s [].
Definition modify (f : app_type -> app_type) : M unit := fun s => Ok tt (f s) [].
Definition emit (e : event) : M unit := fun s => Ok tt s [e].
Definition fault {A : Type} : M A := fun _ => Fault.

Declare Scope task_scope.
Delimit Scope task_scope with task.
Notation "x <- m ;; k" := (bind m (fun x => k))
  (at level 100, m at level 99, right associativity) : task_scope.
Notation "m ;; k" := (bind m (fun _ => k))
  (at level 100, right associativity) : task_scope.
Local Open Scope task_scope.

(** *** Collaborators *)

(** The C string "\n\r". *)
Definition nl_cr : string :=
  String (Ascii.ascii_of_nat 10) (String (Ascii.ascii_of_nat 13) EmptyString).

(** The C string made of the single [char] of value [c] and the closing
    NUL; it is empty when the char itself is NUL. *)
Definition c_string_of_char (c : Z) : string :=
  if c mod 256 =? 0 then EmptyString
  else String (Ascii.ascii_of_N (Z.to_N (c mod 256))) EmptyString.

Definition bluetooth_write (v : float) : M unit := emit (EvBluetoothWrite v).
Definition Board_LED_Set (l : led_id) (on : bool) : M unit := emit (EvBoardLEDSet l on).
Definition messages_print (msg : string) : M unit := emit (EvMessagesPrint msg).

(** [config_write] receives the current configuration; its return value comes
    from the SD card. *)
Definition config_write (ret_code : Z) : M Z :=
  c <- gets config ;; emit (EvConfigWrite c) ;; ret ret_code.

Definition semaphore_give (s : semaphore_id) : M unit :=
  modify (fun a => set_semaphore s (xSemaphoreGive (get_semaphore s a)) a) ;;
  emit (EvSemaphoreGive s).

Definition semaphore_take (s : semaphore_id) (given_in_time : bool) : M bool :=
  sem <- gets (get_semaphore s) ;;
  let '(sem', taken) := xSemaphoreTake sem given_in_time in
  modify (set_semaphore s sem') ;;
  ret taken.

Definition data_queue_get_avail : M (option buffer) :=
  q <- gets data_queue ;;
  let '(b, q') := buffer_queue_get_avail q in
  modify (set_data_queue q') ;; ret b.

Definition data_queue_get_inuse : M (option buffer) :=
  q <- gets data_queue ;;
  let '(b, q') := buffer_queue_get_inuse q in
  modify (set_data_queue q') ;; ret b.

Definition data_queue_return (b : buffer) : M unit :=
  modify (fun a => set_data_queue (buffer_queue_return (data_queue a) b) a).

Definition data_queue_push (b : buffer) : M unit :=
  modify (fun a => set_data_queue (buffer_queue_push (data_queue a) b) a).

(** The constants of app.h that the code below names; the header is not among
    the sources, so they are parameters of the development. *)
Record app_h : Type := mkAppH {
  APP_DATA_BUF_SIZE : Z;
  APP_DATA_BUF_NMBR : nat;
  APP_ADC_MAX_RATE : Z;
  APP_ADC_MIN_RATE : Z;
  (** the FreeRTOS macro, which depends on configTICK_RATE_HZ *)
  pdMS_TO_TICKS : Z -> Z
}.

Definition DBG_PERIOD_MULTIPLIER : Z := 1.

(** What one turn of vTaskConfig meets: the debouncers after the poll and the
    return value [config_write] would give. *)
Record config_poll : Type := mkConfigPoll {
  poll_left : debouncer;
  poll_right : debouncer;
  poll_up : debouncer;
  poll_down : debouncer;
  poll_config_write : Z
}.

(** An edge on the button that raises the sample period (lines 186-192). *)
Definition is_increase (e : config_poll) : bool :=
  debouncer_is_edge (poll_right e) && debouncer_is_hi (poll_right e).

Section Tasks.

Variable K : app_h.

(** [buf[i]] as an lvalue: the access faults unless [0 <= i <
    APP_DATA_BUF_SIZE] and byte [i] of slot [buf] exists in
    [buffer_queue_mem]. *)
Definition buf_store (buf : buffer) (i : Z) (v : Z) : M unit :=
  fun a =>
    if (0 <=? i) && (i <? APP_DATA_BUF_SIZE K) then
      match buffer_queue_mem a !! buf with
      | Some bytes =>
          match bytes !! Z.to_nat i with
          | Some _ =>
              Ok tt (set_buffer_queue_mem
                       (<[buf := <[Z.to_nat i := v]> bytes]> (buffer_queue_mem a)) a) []
          | None => Fault
          end
      | None => Fault
      end
    else Fault.

(** [buf[i]] as an rvalue. *)
Definition buf_load (buf : buffer) (i : Z) : M Z :=
  fun a =>
    if (0 <=? i) && (i <? APP_DATA_BUF_SIZE K) then
      match buffer_queue_mem a !! buf with
      | Some bytes =>
          match bytes !! Z.to_nat i with
          | Some v => Ok v a []
          | None => Fault
          end
      | None => Fault
      end
    else Fault.

(** *** app_update (lines 70-106) *)

(** The loop [for (i = 0; i < APP_DATA_BUF_SIZE; ++i) bluetooth_write(buf[i] *
    mult)], [n] iterations from index [i]. *)
Fixpoint app_forward (buf : buffer) (mult : float) (i : Z) (n : nat) : M unit :=
  match n with
  | O => ret tt
  | S n' =>
      v <- buf_load buf i ;;
      bluetooth_write (float_mul (float_of_Z v) mult) ;;
      app_forward buf mult (i + 1) n'
  end.

(** [reply_in_time]: whether [semaphore_reply] is given while the task waits
    on it.  [buffer_queue_get_inuse] is taken at the moment its wait ends. *)
Definition app_update (reply_in_time : bool) : M unit :=
  q <- gets queue_mpu ;;
  let '(new_accel, q') := xQueueReceive q in
  modify (set_queue_mpu q') ;;
  match new_accel with
  | Some v => modify (set_accel v)
  | None => ret tt
  end ;;
  buf <- data_queue_get_inuse ;;
  match buf with
  | Some b =>
      mult <- gets (fun a => fst (fst (accel a))) ;;
      app_forward b mult 0 (Z.to_nat (APP_DATA_BUF_SIZE K)) ;;
      data_queue_return b ;;
      taken <- semaphore_take SemReply reply_in_time ;;
      if taken then ret tt
      else semaphore_give SemError          (* Timeout *)
  | None => ret tt                          (* ERROR *)
  end.

(** *** adc_update (lines 108-147) *)

(** Lines 110-133: the buffer this turn works on, [buf] in the source. *)
Definition adc_acquire : M (option buffer) :=
  buf <- gets current_buffer ;;
  match buf with
  | None =>
      buf <- data_queue_get_avail ;;
      buf <- match buf with
             | None =>
                 buf <- data_queue_get_inuse ;;
                 match buf with
                 | Some b => data_queue_return b ;; ret None
                 | None => ret None      (* ERROR *)
                 end
             | Some b => ret (Some b)
             end ;;
      modify (set_samples_in_buffer 0) ;;
      modify (set_current_buffer buf) ;;
      ret buf
  | Some b => ret (Some b)
  end.

(** Lines 135-146: one sample into [buf], which is queued once full.
    [adc_value] is what [adc_read(APP_ADC_CHANNEL)] returns; the store into
    the [uint8_t] buffer keeps its low byte. *)
Definition adc_sample (buf : option buffer) (adc_value : Z) : M unit :=
  match buf with
  | Some b =>
      n <- gets samples_in_buffer ;;
      buf_store b n (adc_value mod 256) ;;
      modify (set_samples_in_buffer (n + 1)) ;;
      n' <- gets samples_in_buffer ;;
      if n' =? APP_DATA_BUF_SIZE K then
        data_queue_push b ;;
        modify (set_current_buffer None)
      else ret tt
  | None => ret tt
  end.

Definition adc_update (adc_value : Z) : M unit :=
  buf <- adc_acquire ;;
  adc_sample buf adc_value.

(** *** bluetooth_update (lines 149-157) *)

Definition bluetooth_update (byte_received : bool) : M unit :=
  if byte_received then semaphore_give SemReply else ret tt.

(** *** buttons_update (lines 159-165) *)

(** Modelled from the spec: [debouncer_update] of debouncer.c polls the pin;
    the four arguments are the states it leaves the debouncers in. *)
Definition buttons_update (l r u d : debouncer) : M unit :=
  modify (set_buttons l r u d).

(** *** config_update (lines 167-215) *)

Definition config_update (config_write_ret : Z) : M unit :=
  let modify_sample_rate := 0 in
  left <- gets button_left ;;
  modify_sample_rate <-
    (if debouncer_is_edge left then
       if debouncer_is_hi left
       then Board_LED_Set LED_3 false ;; ret (-1)
       else Board_LED_Set LED_3 true ;; ret modify_sample_rate
     else ret modify_sample_rate) ;;
  right <- gets button_right ;;
  modify_sample_rate <-
    (if debouncer_is_edge right then
       if debouncer_is_hi right
       then Board_LED_Set LED_3 false ;; ret 1
       else Board_LED_Set LED_3 true ;; ret modify_sample_rate
     else ret modify_sample_rate) ;;
  if negb (modify_sample_rate =? 0) then
    p <- gets (fun a => sample_period (config a)) ;;
    (if (modify_sample_rate >? 0) && (p <? APP_ADC_MAX_RATE K)
     then modify (set_config (mkConfig (p + 1)))
     else ret tt) ;;
    p <- gets (fun a => sample_period (config a)) ;;
    (if (modify_sample_rate <? 0) && (p >? APP_ADC_MIN_RATE K)
     then modify (set_config (mkConfig (p - 1)))
     else ret tt) ;;
    sd <- gets config_sd_present ;;
    (if sd then
       r <- config_write config_write_ret ;;
       if r <? 0
       then messages_print ("ERROR: escribir el archivo de configuracion" ++ nl_cr)
       else ret tt
     else ret tt) ;;
    semaphore_give SemConfig
  else ret tt.

(** *** app_init (lines 217-291), the part that sets [app_type] *)

Definition app_init (app : app_type) : app_type :=
  mkApp (buffer_queue_init (APP_DATA_BUF_NMBR K))
    (current_buffer app) (samples_in_buffer app)
    (mkConfig 0) (config_sd_present app)
    (float_zero, float_zero, float_zero)
    (xQueueCreate 1)
    xSemaphoreCreateBinary xSemaphoreCreateBinary xSemaphoreCreateBinary
    (button_left app) (button_right app) (button_up app) (button_down app)
    (replicate (APP_DATA_BUF_NMBR K)
       (replicate (Z.to_nat (APP_DATA_BUF_SIZE K)) 0)).

(** *** The task loops (lines 294-406) *)

(** vTaskADC before its loop: [pApp->current_buffer = NULL]. *)
Definition vTaskADC_init (app : app_type) : app_type :=
  set_current_buffer None app.

(** Lines 317-321: the producer picks up a new configuration. *)
Definition adc_reload_config (xTaskDelay : Z) : M Z :=
  taken <- semaphore_take SemConfig false ;;
  if taken then
    p <- gets (fun a => sample_period (config a)) ;;
    ret (pdMS_TO_TICKS K ((p + 1) * 10 * DBG_PERIOD_MULTIPLIER))
  else ret xTaskDelay.

(** One turn of the loop of vTaskADC; the value is the delay it then sleeps
    for. *)
Definition vTaskADC_iter (adc_value : Z) (xTaskDelay : Z) : M Z :=
  adc_update adc_value ;;
  adc_reload_config xTaskDelay.

(** vTaskConfig before its loop (lines 347-367).  [buttons] are the
    debouncers as [debouncer_init] leaves them, [config_init_ret] and [loaded]
    the return value of [config_init] and the configuration it read. *)
Definition vTaskConfig_init (buttons : debouncer) (config_init_ret : Z)
  (loaded : config_type) : M unit :=
  modify (set_buttons buttons buttons buttons buttons) ;;
  Board_LED_Set LED_2 true ;;
  modify (set_config_sd_present true) ;;
  modify (set_config loaded) ;;
  (if config_init_ret <? 0 then
     messages_print ("ERROR: FATFS/SD, usando configuracion por defecto." ++ nl_cr) ;;
     modify (set_config (mkConfig 0)) ;;
     modify (set_config_sd_present false)
   else ret tt) ;;
  Board_LED_Set LED_2 false ;;
  messages_print "Sample period: " ;;
  p <- gets (fun a => sample_period (config a)) ;;
  messages_print (c_string_of_char (48 + p)) ;;
  messages_print nl_cr.

(** One turn of the loop of vTaskConfig. *)
Definition vTaskConfig_iter (e : config_poll) : M unit :=
  buttons_update (poll_left e) (poll_right e) (poll_up e) (poll_down e) ;;
  config_update (poll_config_write e).

(** One turn of the loop of vTaskError, once the error semaphore is given. *)
Definition vTaskError_iter : M unit :=
  Board_LED_Set LED_1 false ;;
  taken <- semaphore_take SemError true ;;
  Board_LED_Set LED_1 true.

(** One turn of the loop of vTaskMPU: [accel] is the reading of
    [mpu_get_accelerometer]. *)
Definition vTaskMPU_iter (accel : vec3) : M unit :=
  modify (fun a => set_queue_mpu (fst (xQueueSendToBack (queue_mpu a) accel)) a).

(** Consecutive turns of a loop, one per input. *)
Fixpoint iterate {I : Type} (body : I -> M unit) (inputs : list I) : M unit :=
  match inputs with
  | [] => ret tt
  | i :: rest => body i ;; iterate body rest
  end.

End Tasks.

(** [app->config.sample_period]. *)
Definition period (a : app_type) : Z := sample_period (config a).

(** ** Observations on the calls of a task body *)

Definition is_give (s : semaphore_id) (e : event) : bool :=
  match e, s with
  | EvSemaphoreGive SemConfig, SemConfig
  | EvSemaphoreGive SemError, SemError
  | EvSemaphoreGive SemReply, SemReply => true
  | _, _ => false
  end.

(** How many times semaphore [s] is given. *)
Definition gives (s : semaphore_id) (out : list event) : nat :=
  length (List.filter (is_give s) out).

(** The sample periods handed to [config_write], in call order. *)
Fixpoint config_writes (out : list event) : list Z :=
  match out with
  | [] => []
  | EvConfigWrite c :: rest => sample_period c :: config_writes rest
  | _ :: rest => config_writes rest
  end.

(** The values handed to [bluetooth_write], in call order. *)
Fixpoint forwarded (out : list event) : list float :=
  match out with
  | [] => []
  | EvBluetoothWrite v :: rest => v :: forwarded rest
  | _ :: rest => forwarded rest
  end.

(** ** Reachable states and the invariant of the pool *)

Section Reach.

Variable K : app_h.

(** One uninterrupted action of one of the six tasks. *)
Inductive task_step : app_type -> app_type -> Prop :=
| step_adc_update v a a' out :
    adc_update K v a = Ok tt a' out -> task_step a a'
| step_adc_reload d a d' a' out :
    adc_reload_config K d a = Ok d' a' out -> task_step a a'
| step_app_update r a a' out :
    app_update K r a = Ok tt a' out -> task_step a a'
| step_bluetooth_update r a a' out :
    bluetooth_update r a = Ok tt a' out -> task_step a a'
| step_config_init b r c a a' out :
    vTaskConfig_init b r c a = Ok tt a' out -> task_step a a'
| step_config e a a' out :
    vTaskConfig_iter K e a = Ok tt a' out -> task_step a a'
| step_error a a' out :
    vTaskError_iter a = Ok tt a' out -> task_step a a'
| step_mpu v a a' out :
    vTaskMPU_iter v a = Ok tt a' out -> task_step a a'.

(** The states the system passes through once [app_init] has run and
    vTaskADC has reached its loop. *)
Inductive reachable : app_type -> Prop :=
| reach_start app : reachable (vTaskADC_init (app_init K app))
| reach_step a a' : reachable a -> task_step a a' -> reachable a'.

(** Every buffer the pool knows is a slot of the memory. *)
Definition pool_wf (n : nat) (q : buffer_queue) : Prop :=
  Forall (fun b => (b < n)%nat)
    (bq_free q ++ bq_queued q ++ bq_producer q ++ bq_consumer q).

(** Every slot holds [APP_DATA_BUF_SIZE] bytes. *)
Definition mem_wf (mem : list (list Z)) : Prop :=
  Forall (fun bytes => length bytes = Z.to_nat (APP_DATA_BUF_SIZE K)) mem.

(** The producer's fill counter is an index into its buffer. *)
Definition producer_wf (a : app_type) : Prop :=
  forall b, current_buffer a = Some b ->
    (b < length (buffer_queue_mem a))%nat /\
    0 <= samples_in_buffer a < APP_DATA_BUF_SIZE K.

Definition app_wf (a : app_type) : Prop :=
  pool_wf (length (buffer_queue_mem a)) (data_queue a) /\
  mem_wf (buffer_queue_mem a) /\
  producer_wf a.

End Reach.

(** What the producer relies on: the pool, the memory, its buffer and its
    fill counter. *)
Definition producer_frame (a a' : app_type) : Prop :=
  data_queue a' = data_queue a /\
  buffer_queue_mem a' = buffer_queue_mem a /\
  current_buffer a' = current_buffer a /\
  samples_in_buffer a' = samples_in_buffer a.

(** What the consumer side can still acquire, in the order it would: the
    contents of the buffers that up to [n] calls of [buffer_queue_get_inuse]
    return. *)
Fixpoint acquire_all (n : nat) (q : buffer_queue) (mem : list (list Z))
  : list (list Z) :=
  match n with
  | O => []
  | S n' =>
      match buffer_queue_get_inuse q with
      | (Some b, q') => default [] (mem !! b) :: acquire_all n' q' mem
      | (None, _) => []
      end
  end.

(** ** The configuration of the scenarios

    Four buffers of eight samples, sample periods 0 to 9, a 1 kHz tick. *)
Definition scenario_h : app_h :=
  mkAppH 8 4 9 0 (fun ms => ms * 1000 / 1000).

(** [app_type] in zeroed static storage, before [app_init]. *)
Definition app_zeroed : app_type :=
  mkApp (mkBufferQueue [] [] [] []) None 0 (mkConfig 0) false
    (float_zero, float_zero, float_zero) (mkQueue 0 []) false false false
    (mkDebouncer false false) (mkDebouncer false false)
    (mkDebouncer false false) (mkDebouncer false false) [].

(** The system once [app_init] has run and vTaskADC has reached its loop. *)
Definition scenario_start : app_type :=
  vTaskADC_init (app_init scenario_h app_zeroed).

(** The state a task body leaves (the state it started in if it faults). *)
Definition run_from {A : Type} (m : M A) (a : app_type) : app_type :=
  match m a with
  | Ok _ a' _ => a'
  | Fault => a
  end.

(** The same once vTaskConfig has reached its loop with the stored
    configuration read back: sample period 0, SD card present. *)
Definition scenario_config_start : app_type :=
  run_from (vTaskConfig_init (mkDebouncer false false) 0 (mkConfig 0))
    scenario_start.

(** The producer has filled and queued one buffer of samples of value 10. *)
Definition scenario_one_full : app_type :=
  run_from (iterate (adc_update scenario_h) (repeat 10 8)) scenario_start.

(** The producer has filled and queued all four buffers: samples 0 to 31. *)
Definition scenario_pool_full : app_type :=
  run_from (iterate (adc_update scenario_h) (map Z.of_nat (seq 0 32)))
    scenario_start.

(** A poll that finds a released-edge on the right button only. *)
Definition increase_edge : config_poll :=
  mkConfigPoll (mkDebouncer false false) (mkDebouncer true true)
    (mkDebouncer false false) (mkDebouncer false false) 0.

(** The same on the left button, which lowers the sample period. *)
Definition decrease_edge : config_poll :=
  mkConfigPoll (mkDebouncer true true) (mkDebouncer false false)
    (mkDebouncer false false) (mkDebouncer false false) 0.

(** Scenario A: [g k i] is the ADC value of sample [i] of the [k]-th buffer
    the producer fills, [samples g k] the eight values read for it and
    [stored g k] the bytes they leave in the buffer. *)
Definition samples (g : nat -> nat -> Z) (k : nat) : list Z :=
  map (g k) (seq 0 8).

Definition stored (g : nat -> nat -> Z) (k : nat) : list Z :=
  map (fun i => g k i mod 256) (seq 0 8).

(** Distinct sample values: sample [i] of buffer [k] reads [10 * k + i]. *)
Definition tagged (k i : nat) : Z := Z.of_nat (10 * k + i).

Definition mpu_reading_1 : vec3 := (float_of_Z 1, float_of_Z 2, float_of_Z 3).
Definition mpu_reading_2 : vec3 := (float_of_Z 4, float_of_Z 5, float_of_Z 6).

(** ** The remaining task loops, and further observations *)

(** One turn of the loop of vTaskApp (lines 298-301). *)
Definition vTaskApp_iter (K : app_h) (reply_in_time : bool) : M unit :=
  app_update K reply_in_time.

(** One turn of the loop of vTaskBluetooth (lines 333-338);
    [byte_received]: whether [bluetooth_read] finds a byte. *)
Definition vTaskBluetooth_iter (byte_received : bool) : M unit :=
  bluetooth_update byte_received.

(** An edge on the button that lowers the sample period (lines 172-178). *)
Definition is_decrease (e : config_poll) : bool :=
  debouncer_is_edge (poll_left e) && debouncer_is_hi (poll_left e).

(** The strings handed to [messages_print], in call order. *)
Fixpoint messages (out : list event) : list string :=
  match out with
  | [] => []
  | EvMessagesPrint m :: rest => m :: messages rest
  | _ :: rest => messages rest
  end.

(** The calls of [Board_LED_Set], in call order. *)
Fixpoint led_sets (out : list event) : list (led_id * bool) :=
  match out with
  | [] => []
  | EvBoardLEDSet l on :: rest => (l, on) :: led_sets rest
  | _ :: rest => led_sets rest
  end.

(** The float 1.0. *)
Definition float_one : float := float_of_Z 1.

(** The bytes of a buffer after the samples [vs] have been stored from index
    [k] on, one per turn of the producer. *)
Fixpoint store_run (k : nat) (vs : list Z) (bytes : list Z) : list Z :=
  match vs with
  | [] => bytes
  | v :: rest => store_run (S k) rest (<[k := v mod 256]> bytes)
  end.

(** The fields of [app_type] that the producer never writes. *)
Definition producer_leaves (a a' : app_type) : Prop :=
  config a' = config a /\
  config_sd_present a' = config_sd_present a /\
  accel a' = accel a /\
  queue_mpu a' = queue_mpu a /\
  semaphore_config a' = semaphore_config a /\
  semaphore_error a' = semaphore_error a /\
  semaphore_reply a' = semaphore_reply a /\
  button_left a' = button_left a /\
  button_right a' = button_right a /\
  button_up a' = button_up a /\
  button_down a' = button_down a.

(** The buffer the producer holds, as a list. *)
Definition held (a : app_type) : list buffer :=
  match current_buffer a with
  | Some b => [b]
  | None => []
  end.

(** Between the turns of the tasks every buffer of the pool is accounted for
    once: nothing is checked out on the consumer side, the producer side
    holds exactly [current_buffer], and Free, Queued and the held buffer
    together are the [n] slots. *)
Definition pool_accounted (n : nat) (a : app_type) : Prop :=
  bq_consumer (data_queue a) = [] /\
  bq_producer (data_queue a) = held a /\
  Permutation (bq_free (data_queue a) ++ bq_queued (data_queue a) ++ held a)
    (seq 0 n).

(** One buffer only, for the states in which the pool has nothing to give. *)
Definition single_buffer_h : app_h :=
  mkAppH 8 1 9 0 (fun ms => ms * 1000 / 1000).

(** The single buffer has been filled and queued, and the consumer has just
    acquired it: the state the producer meets when it pre-empts the consumer
    in the middle of its turn. *)
Definition scenario_consumer_busy : app_type :=
  run_from data_queue_get_inuse
    (run_from (iterate (adc_update single_buffer_h) (repeat 10 8))
       (vTaskADC_init (app_init single_buffer_h app_zeroed))).

(** [scenario_one_full] with the vector (1.0, 2.0, 3.0) waiting in the
    mailbox. *)
Definition scenario_one_full_unit : app_type :=
  run_from (vTaskMPU_iter mpu_reading_1) scenario_one_full.

(** The value of [modify_sample_rate] once both buttons have been looked at
    (lines 169-197): the right button is tested last and overrides the
    left. *)
Definition poll_rate (e : config_poll) : Z :=
  if is_increase e then 1 else if is_decrease e then -1 else 0.

(** The message of line 210. *)
Definition config_write_error : string :=
  ("ERROR: escribir el archivo de configuracion" ++ nl_cr)%string.

(** A poll that finds both buttons just released. *)
Definition both_released : config_poll :=
  mkConfigPoll (mkDebouncer true true) (mkDebouncer true true)
    (mkDebouncer false false) (mkDebouncer false false) 0.

(** A poll that finds the right button just pressed: an edge, level low. *)
Definition press_edge : config_poll :=
  mkConfigPoll (mkDebouncer false true) (mkDebouncer true false)
    (mkDebouncer false false) (mkDebouncer false false) 0.

(** An increase edge whose [config_write] fails. *)
Definition increase_edge_sd_error : config_poll :=
  mkConfigPoll (mkDebouncer false false) (mkDebouncer true true)
    (mkDebouncer false false) (mkDebouncer false false) (-1).

(** The message of line 356. *)
Definition config_init_error : string :=
  ("ERROR: FATFS/SD, usando configuracion por defecto." ++ nl_cr)%string.

(** A release edge on the left button alone. *)
Definition is_pure_decrease (e : config_poll) : bool :=
  negb (is_increase e) && is_decrease e.

(** [scenario_one_full] after a byte has come in over Bluetooth: the reply
    semaphore is pending before the consumer has sent anything. *)
Definition scenario_stale_reply : app_type :=
  run_from (vTaskBluetooth_iter true) scenario_one_full.

(** ** Before the first accelerometer vector *)

Section BeforeFirstVector.

Variable K : app_h.

(** One uninterrupted action of a task other than vTaskMPU. *)
Inductive quiet_step : app_type -> app_type -> Prop :=
| quiet_adc_update v a a' out :
    adc_update K v a = Ok tt a' out -> quiet_step a a'
| quiet_adc_reload d a d' a' out :
    adc_reload_config K d a = Ok d' a' out -> quiet_step a a'
| quiet_app_update r a a' out :
    app_update K r a = Ok tt a' out -> quiet_step a a'
| quiet_bluetooth_update r a a' out :
    bluetooth_update r a = Ok tt a' out -> quiet_step a a'
| quiet_config_init b r c a a' out :
    vTaskConfig_init b r c a = Ok tt a' out -> quiet_step a a'
| quiet_config e a a' out :
    vTaskConfig_iter K e a = Ok tt a' out -> quiet_step a a'
| quiet_error a a' out :
    vTaskError_iter a = Ok tt a' out -> quiet_step a a'.

(** The states the system passes through from [app_init] on for as long as
    vTaskMPU has sent nothing: any turns of the five other tasks, in any
    order. *)
Inductive reachable_before_mpu : app_type -> Prop :=
| quiet_start app : reachable_before_mpu (vTaskADC_init (app_init K app))
| quiet_next a a' :
    reachable_before_mpu a -> quiet_step a a' -> reachable_before_mpu a'.

End BeforeFirstVector.

(** Every byte of the buffer memory is a [uint8_t]. *)
Definition mem_bytes (mem : list (list Z)) : Prop :=
  Forall (Forall (fun v => 0 <= v < 256)) mem.

(** The consumer's vector and the mailbox are as [app_init] left them. *)
Definition scale_untouched (a : app_type) : Prop :=
  accel a = (float_zero, float_zero, float_zero) /\
  items (queue_mpu a) = [].

(** The vector and the mailbox are the same in both states. *)
Definition scale_frame (a a' : app_type) : Prop :=
  accel a' = accel a /\ queue_mpu a' = queue_mpu a.

(** * Properties *)

Lemma gives_app s o1 o2 : gives s (o1 ++ o2) = (gives s o1 + gives s o2)%nat.
Proof. unfold gives. now rewrite List.filter_app, length_app. Qed.

Lemma config_writes_app o1 o2 :
  config_writes (o1 ++ o2) = config_writes o1 ++ config_writes o2.
Proof.
  induction o1 as [|e o1 IH]; simpl; [reflexivity|].
  destruct e; simpl; now rewrite ?IH.
Qed.

Lemma forwarded_app o1 o2 : forwarded (o1 ++ o2) = forwarded o1 ++ forwarded o2.
Proof.
  induction o1 as [|e o1 IH]; simpl; [reflexivity|].
  destruct e; simpl; now rewrite ?IH.
Qed.

(** ** Reasoning in the monad *)

Lemma bind_ok {A B} (m : M A) (f : A -> M B) s a s1 o1 b s2 o2 :
  m s = Ok a s1 o1 -> f a s1 = Ok b s2 o2 ->
  bind m f s = Ok b s2 (o1 ++ o2).
Proof. intros Hm Hf. unfold bind. now rewrite Hm, Hf. Qed.

Lemma iterate_cons {I} (body : I -> M unit) i rest s s1 o1 s2 o2 :
  body i s = Ok tt s1 o1 -> iterate body rest s1 = Ok tt s2 o2 ->
  iterate body (i :: rest) s = Ok tt s2 (o1 ++ o2).
Proof. intros H1 H2. simpl. now apply bind_ok with (a := tt) (s1 := s1). Qed.

Ltac unfold_setters :=
  unfold set_data_queue, set_current_buffer, set_samples_in_buffer, set_config,
    set_config_sd_present, set_accel, set_queue_mpu, set_buttons,
    set_buffer_queue_mem, set_semaphore, get_semaphore.

Ltac run_task :=
  unfold bind, ret, gets, modify, emit, semaphore_give, semaphore_take,
    config_write, messages_print, Board_LED_Set, bluetooth_write,
    data_queue_get_avail, data_queue_get_inuse, data_queue_return,
    data_queue_push, xSemaphoreTake, xSemaphoreGive; simpl.

(** ** The accelerometer mailbox *)

(** C1, as stated, fails: after [app_init], two turns of vTaskMPU with
    readings (1,2,3) and (4,5,6) and then one turn of the consumer leave the
    first reading in [app->accel], not the second. *)
Lemma mailbox_second_send_lost :
  exists a',
    (vTaskMPU_iter mpu_reading_1 ;; vTaskMPU_iter mpu_reading_2 ;;
     app_update scenario_h false) scenario_start = Ok tt a' [] /\
    accel a' = mpu_reading_1 /\ accel a' <> mpu_reading_2.
Proof.
  eexists. split; [vm_compute; reflexivity|].
  split; [reflexivity | vm_compute; discriminate].
Qed.

(** C1, amended: [queue_mpu] has room for one vector and vTaskMPU posts with
    [xQueueSendToBack] and no block time, so a send into an occupied mailbox
    is refused and the unread vector stays.  After two sends with no receive
    in between, the second send has failed and the receive yields the vector
    that was already waiting, or the first send's vector if the mailbox was
    empty; the mailbox is empty afterwards. *)
Theorem mailbox_send_keeps_unread (a : app_type) (v1 v2 : vec3) :
  uxLength (queue_mpu a) = 1%nat ->
  exists a1 a2,
    vTaskMPU_iter v1 a = Ok tt a1 [] /\
    vTaskMPU_iter v2 a1 = Ok tt a2 [] /\
    snd (xQueueSendToBack (queue_mpu a1) v2) = false /\
    xQueueReceive (queue_mpu a2) =
      (Some (match items (queue_mpu a) with [] => v1 | v0 :: _ => v0 end),
       mkQueue 1 (tl (items (queue_mpu a)))).
Proof.
  intros Hcap. unfold vTaskMPU_iter, modify. do 2 eexists.
  split; [reflexivity|]. split; [reflexivity|].
  destruct a as [dq cb n c sd ac [cap its] s1 s2 s3 b1 b2 b3 b4 mem].
  simpl in *. subst cap.
  destruct its as [|v0 rest]; simpl; [split; reflexivity|].
  unfold xQueueSendToBack; simpl. split; reflexivity.
Qed.

Lemma mailbox_send_keeps_unread_witness :
  uxLength (queue_mpu scenario_start) = 1%nat /\
  exists a1 a2,
    vTaskMPU_iter mpu_reading_1 scenario_start = Ok tt a1 [] /\
    vTaskMPU_iter mpu_reading_2 a1 = Ok tt a2 [] /\
    snd (xQueueSendToBack (queue_mpu a1) mpu_reading_2) = false /\
    xQueueReceive (queue_mpu a2) =
      (Some (match items (queue_mpu scenario_start) with
             | [] => mpu_reading_1
             | v0 :: _ => v0
             end),
       mkQueue 1 (tl (items (queue_mpu scenario_start)))).
Proof.
  split; [reflexivity|].
  apply (mailbox_send_keeps_unread scenario_start mpu_reading_1 mpu_reading_2).
  reflexivity.
Defined.
(** ** The sample-period configuration *)

Lemma config_iter_increase K e a :
  is_increase e = true ->
  exists a' out,
    vTaskConfig_iter K e a = Ok tt a' out /\
    period a' = (if period a <? APP_ADC_MAX_RATE K then period a + 1 else period a) /\
    config_sd_present a' = config_sd_present a /\
    config_writes out = (if config_sd_present a then [period a'] else []) /\
    gives SemConfig out = 1%nat.
Proof.
  unfold is_increase. intros He. apply andb_prop in He as [He Hh].
  destruct e as [[le lh] [re rh] u d w]; simpl in *. subst re rh.
  unfold vTaskConfig_iter, buttons_update, config_update, period; simpl.
  destruct a as [dq cb n [p] sd ac q s1 s2 s3 b1 b2 b3 b4 mem]; simpl.
  run_task.
  destruct le, lh; simpl;
    destruct (p <? APP_ADC_MAX_RATE K) eqn:Hp; simpl;
    destruct sd; simpl; try destruct (w <? 0); simpl;
    do 2 eexists; repeat split; reflexivity.
Qed.

(** [n] increase edges in a row: the period climbs one step per edge until it
    reaches the maximum, and every edge is written and signalled. *)
Lemma increase_run K envs : forall a,
  forallb is_increase envs = true ->
  period a <= APP_ADC_MAX_RATE K ->
  exists a' out,
    iterate (vTaskConfig_iter K) envs a = Ok tt a' out /\
    period a' = Z.min (period a + Z.of_nat (length envs)) (APP_ADC_MAX_RATE K) /\
    config_sd_present a' = config_sd_present a /\
    config_writes out =
      (if config_sd_present a
       then map (fun k => Z.min (period a + Z.of_nat k) (APP_ADC_MAX_RATE K))
              (seq 1 (length envs))
       else []) /\
    gives SemConfig out = length envs.
Proof.
  induction envs as [|e envs IH]; intros a Hall Hle.
  - exists a, []. simpl. repeat split; try reflexivity.
    + lia.
    + now destruct (config_sd_present a).
  - simpl in Hall. apply andb_prop in Hall as [He Hall].
    destruct (config_iter_increase K e a He) as (a1 & o1 & H1 & Hp1 & Hsd1 & Hw1 & Hg1).
    assert (Hp1' : period a1 = Z.min (period a + 1) (APP_ADC_MAX_RATE K)).
    { rewrite Hp1. destruct (Z.ltb_spec (period a) (APP_ADC_MAX_RATE K)); lia. }
    destruct (IH a1 Hall) as (a2 & o2 & H2 & Hp2 & Hsd2 & Hw2 & Hg2); [lia|].
    exists a2, (o1 ++ o2). split; [now apply iterate_cons with (s1 := a1)|].
    split; [rewrite Hp2, Hp1'; simpl length; lia|].
    split; [congruence|].
    split.
    + rewrite config_writes_app, Hw1, Hw2, Hsd1.
      destruct (config_sd_present a); [|reflexivity].
      simpl length. simpl seq. simpl map. cbn [app]. f_equal.
      * rewrite Hp1'. lia.
      * rewrite <- (seq_shift (length envs) 1), map_map. apply map_ext. intros k.
        rewrite Hp1'. lia.
    + rewrite gives_app, Hg1, Hg2. reflexivity.
Qed.

(** C4, as stated, fails: with the SD card present, twenty increase edges from
    period 0 call [config_write] twenty times, not nine. *)
Lemma scenario_C_twenty_writes :
  exists a' out,
    iterate (vTaskConfig_iter scenario_h) (repeat increase_edge 20)
      scenario_config_start = Ok tt a' out /\
    period a' = 9 /\
    length (config_writes out) = 20%nat /\
    length (config_writes out) <> 9%nat /\
    gives SemConfig out = 20%nat.
Proof.
  do 2 eexists. split; [vm_compute; reflexivity|].
  repeat split; try reflexivity. vm_compute. discriminate.
Qed.

(** C4, amended: with MAX = 9, twenty increase edges from period 0 leave the
    period at 9.  Each of the twenty edges gives the config-changed semaphore
    and, when the SD card is present, calls [config_write] (no call at all
    when it is absent): the first nine calls carry the periods 1 to 9, the
    other eleven carry the unchanged period 9. *)
Theorem scenario_C_every_edge_persisted K envs a :
  APP_ADC_MAX_RATE K = 9 ->
  length envs = 20%nat ->
  forallb is_increase envs = true ->
  period a = 0 ->
  exists a' out,
    iterate (vTaskConfig_iter K) envs a = Ok tt a' out /\
    period a' = 9 /\
    config_writes out =
      (if config_sd_present a
       then [1; 2; 3; 4; 5; 6; 7; 8; 9; 9; 9; 9; 9; 9; 9; 9; 9; 9; 9; 9]
       else []) /\
    gives SemConfig out = 20%nat.
Proof.
  intros Hmax Hlen Hall Hp.
  destruct (increase_run K envs a Hall) as (a' & out & H & Hp' & _ & Hw & Hg); [lia|].
  exists a', out. rewrite Hlen, Hmax, Hp in *.
  repeat split; assumption.
Qed.

Lemma scenario_C_every_edge_persisted_witness :
  APP_ADC_MAX_RATE scenario_h = 9 /\
  length (repeat increase_edge 20) = 20%nat /\
  forallb is_increase (repeat increase_edge 20) = true /\
  period scenario_config_start = 0 /\
  exists a' out,
    iterate (vTaskConfig_iter scenario_h) (repeat increase_edge 20)
      scenario_config_start = Ok tt a' out /\
    period a' = 9 /\
    config_writes out =
      (if config_sd_present scenario_config_start
       then [1; 2; 3; 4; 5; 6; 7; 8; 9; 9; 9; 9; 9; 9; 9; 9; 9; 9; 9; 9]
       else []) /\
    gives SemConfig out = 20%nat.
Proof.
  split; [reflexivity|]. split; [reflexivity|]. split; [reflexivity|].
  split; [reflexivity|].
  apply (scenario_C_every_edge_persisted scenario_h (repeat increase_edge 20)
           scenario_config_start); reflexivity.
Defined.

Lemma config_iter_range K e a :
  APP_ADC_MIN_RATE K <= period a <= APP_ADC_MAX_RATE K ->
  exists a' out,
    vTaskConfig_iter K e a = Ok tt a' out /\
    APP_ADC_MIN_RATE K <= period a' <= APP_ADC_MAX_RATE K.
Proof.
  intros Hr.
  destruct e as [[le lh] [re rh] u d w].
  unfold vTaskConfig_iter, buttons_update, config_update, period in *; simpl.
  destruct a as [dq cb n [p] sd ac q s1 s2 s3 b1 b2 b3 b4 mem]; simpl in *.
  run_task.
  destruct le, lh, re, rh; simpl;
    try (do 2 eexists; split; [reflexivity|simpl; lia]);
    destruct (Z.ltb_spec p (APP_ADC_MAX_RATE K)); simpl;
    try destruct (Z.gtb_spec p (APP_ADC_MIN_RATE K)); simpl;
    try destruct (Z.gtb_spec (p + 1) (APP_ADC_MIN_RATE K)); simpl;
    destruct sd; simpl; try destruct (w <? 0); simpl;
    do 2 eexists; (split; [reflexivity|simpl; lia]).
Qed.

Lemma config_run_range K envs : forall a,
  APP_ADC_MIN_RATE K <= period a <= APP_ADC_MAX_RATE K ->
  exists a' out,
    iterate (vTaskConfig_iter K) envs a = Ok tt a' out /\
    APP_ADC_MIN_RATE K <= period a' <= APP_ADC_MAX_RATE K.
Proof.
  induction envs as [|e envs IH]; intros a Hr.
  - exists a, []. split; [reflexivity|assumption].
  - destruct (config_iter_range K e a Hr) as (a1 & o1 & H1 & Hr1).
    destruct (IH a1 Hr1) as (a2 & o2 & H2 & Hr2).
    exists a2, (o1 ++ o2). split; [now apply iterate_cons with (s1 := a1)|assumption].
Qed.

(** C8: from a period within [MIN, MAX], after any number of turns of the
    config task, whatever the buttons do in each, the period is still within
    [MIN, MAX]; this holds after every turn of the sequence. *)
Theorem config_period_bounded K (envs : list config_poll) (n : nat) a :
  APP_ADC_MIN_RATE K <= period a <= APP_ADC_MAX_RATE K ->
  exists a' out,
    iterate (vTaskConfig_iter K) (firstn n envs) a = Ok tt a' out /\
    APP_ADC_MIN_RATE K <= period a' <= APP_ADC_MAX_RATE K.
Proof. apply config_run_range. Qed.

Lemma config_period_bounded_witness :
  APP_ADC_MIN_RATE scenario_h <= period scenario_config_start
    <= APP_ADC_MAX_RATE scenario_h /\
  exists a' out,
    iterate (vTaskConfig_iter scenario_h)
      (firstn 15 (repeat increase_edge 12 ++ repeat decrease_edge 12))
      scenario_config_start = Ok tt a' out /\
    APP_ADC_MIN_RATE scenario_h <= period a' <= APP_ADC_MAX_RATE scenario_h.
Proof.
  split; [vm_compute; split; discriminate|].
  apply (config_period_bounded scenario_h
           (repeat increase_edge 12 ++ repeat decrease_edge 12) 15
           scenario_config_start).
  vm_compute; split; discriminate.
Defined.

(** ** The producer and a new configuration *)

(** C9: picking up the config-changed semaphore in vTaskADC changes nothing
    but the semaphore and the task's delay: the checked-out buffer, the fill
    counter, the buffer memory, the pool and the configuration are those of
    before, no call is made, and the delay is recomputed from the sample
    period exactly when the semaphore was given. *)
Theorem reload_keeps_buffer K (xTaskDelay : Z) (a : app_type) :
  exists a',
    adc_reload_config K xTaskDelay a =
      Ok (if semaphore_config a
          then pdMS_TO_TICKS K ((period a + 1) * 10 * DBG_PERIOD_MULTIPLIER)
          else xTaskDelay) a' [] /\
    current_buffer a' = current_buffer a /\
    samples_in_buffer a' = samples_in_buffer a /\
    buffer_queue_mem a' = buffer_queue_mem a /\
    data_queue a' = data_queue a /\
    config a' = config a /\
    semaphore_config a' = false.
Proof.
  unfold adc_reload_config, period. run_task.
  destruct a as [dq cb n c sd ac q [|] s2 s3 b1 b2 b3 b4 mem]; simpl;
    eexists; repeat split; reflexivity.
Qed.

(** ** The consumer *)

(** The forwarding loop reads its buffer and leaves the state alone. *)
Lemma app_forward_ok K b mult bytes a n : forall k : nat,
  buffer_queue_mem a !! b = Some bytes ->
  (k + n <= length bytes)%nat ->
  Z.of_nat (k + n) <= APP_DATA_BUF_SIZE K ->
  app_forward K b mult (Z.of_nat k) n a =
    Ok tt a (map (fun v => EvBluetoothWrite (float_mul (float_of_Z v) mult))
               (firstn n (skipn k bytes))).
Proof.
  induction n as [|n IH]; intros k Hmem Hlen Hsize; [reflexivity|].
  destruct (lookup_lt_is_Some_2 bytes k) as [v Hv]; [lia|].
  assert (Hdrop : skipn k bytes = v :: skipn (S k) bytes).
  { now apply drop_S. }
  rewrite Hdrop. cbn [firstn map app_forward].
  replace (Z.of_nat k + 1) with (Z.of_nat (S k)) by lia.
  eapply bind_ok with (o1 := []).
  - unfold buf_load. rewrite Hmem, Nat2Z.id, Hv.
    destruct (Z.leb_spec 0 (Z.of_nat k)); [|lia].
    destruct (Z.ltb_spec (Z.of_nat k) (APP_DATA_BUF_SIZE K)); [|lia].
    reflexivity.
  - eapply bind_ok with (o1 := [_]); [reflexivity|].
    apply IH; [assumption|lia|lia].
Qed.

(** The consumer's turn when a full buffer is waiting: the mailbox is read,
    every byte of the oldest queued buffer is forwarded scaled by
    [accel[0]], the buffer goes back to Free, and the error semaphore is given
    exactly when the reply semaphore cannot be taken. *)
Lemma app_update_full K r a b rest bytes :
  bq_queued (data_queue a) = b :: rest ->
  buffer_queue_mem a !! b = Some bytes ->
  length bytes = Z.to_nat (APP_DATA_BUF_SIZE K) ->
  exists a' out,
    app_update K r a = Ok tt a' out /\
    accel a' = match items (queue_mpu a) with [] => accel a | v :: _ => v end /\
    forwarded out =
      map (fun v => float_mul (float_of_Z v) (fst (fst (accel a')))) bytes /\
    gives SemError out = (if semaphore_reply a || r then 0 else 1)%nat /\
    semaphore_error a' = (if semaphore_reply a || r then semaphore_error a else true) /\
    semaphore_reply a' = false /\
    data_queue a' =
      mkBufferQueue (bq_free (data_queue a) ++ [b]) rest
        (bq_producer (data_queue a)) (bq_consumer (data_queue a)) /\
    buffer_queue_mem a' = buffer_queue_mem a /\
    current_buffer a' = current_buffer a /\
    samples_in_buffer a' = samples_in_buffer a.
Proof.
  intros Hq Hmem Hlen.
  destruct a as [[fr qu pr co] cb n c sd ac [cap its] s1 s2 s3 b1 b2 b3 b4 mem];
    simpl in *. subst qu.
  set (ac' := match its with [] => ac | v :: _ => v end).
  set (a1 := mkApp (mkBufferQueue fr rest pr (b :: co)) cb n c sd ac'
                (mkQueue cap (tl its)) s1 s2 s3 b1 b2 b3 b4 mem).
  assert (Hfw := app_forward_ok K b (fst (fst ac')) bytes a1
                   (Z.to_nat (APP_DATA_BUF_SIZE K)) 0 Hmem).
  simpl in Hfw. rewrite skipn_O, <- Hlen, firstn_all in Hfw.
  specialize (Hfw (Nat.le_refl _)).
  assert (Hsz : Z.of_nat (length bytes) <= APP_DATA_BUF_SIZE K \/ length bytes = 0%nat) by lia.
  assert (Hfw' : app_forward K b (fst (fst ac')) 0 (length bytes) a1 =
                 Ok tt a1 (map (fun v => EvBluetoothWrite
                                  (float_mul (float_of_Z v) (fst (fst ac')))) bytes)).
  { destruct Hsz as [Hsz|Hsz]; [now apply Hfw|].
    destruct bytes; [reflexivity|discriminate]. }
  clear Hfw Hsz.
  unfold app_update. run_task. unfold xQueueReceive; simpl.
  rewrite <- Hlen.
  assert (Hout : forall o, forwarded (map (fun v => EvBluetoothWrite
                  (float_mul (float_of_Z v) (fst (fst ac')))) bytes ++ o) =
                  map (fun v => float_mul (float_of_Z v) (fst (fst ac'))) bytes
                  ++ forwarded o).
  { intros o. rewrite forwarded_app. f_equal.
    clear. induction bytes as [|x l IH]; simpl; congruence. }
  assert (Hgv : forall o, gives SemError (map (fun v => EvBluetoothWrite
                  (float_mul (float_of_Z v) (fst (fst ac')))) bytes ++ o) =
                  gives SemError o).
  { intros o. rewrite gives_app.
    replace (gives SemError (map _ bytes)) with 0%nat; [reflexivity|].
    clear. induction bytes as [|x l IH]; simpl; [reflexivity|assumption]. }
  subst a1.
  destruct its as [|v0 its]; subst ac'; simpl in *; unfold_setters; simpl;
    rewrite Hfw'; simpl; unfold buffer_queue_return; simpl;
    rewrite Nat.eqb_refl; unfold_setters; simpl;
    destruct (s3 || r); simpl;
    do 2 eexists; (split; [reflexivity|]); simpl;
    rewrite ?Hout, ?Hgv; simpl; rewrite ?app_nil_r;
    repeat split; reflexivity.
Qed.

(** C5, as stated, fails: with nothing queued the consumer's turn makes no
    call at all (no message, no LED, no semaphore) and the error semaphore
    stays clear. *)
Lemma underrun_not_reported :
  bq_queued (data_queue scenario_start) = [] /\
  exists a',
    app_update scenario_h false scenario_start = Ok tt a' [] /\
    semaphore_error a' = false.
Proof. split; [reflexivity|]. eexists. split; reflexivity. Qed.

(** The consumer's turn when nothing is queued. *)
Lemma app_update_empty K r a :
  bq_queued (data_queue a) = [] ->
  exists a',
    app_update K r a = Ok tt a' [] /\
    semaphore_error a' = semaphore_error a /\
    semaphore_reply a' = semaphore_reply a /\
    semaphore_config a' = semaphore_config a /\
    data_queue a' = data_queue a /\
    buffer_queue_mem a' = buffer_queue_mem a /\
    current_buffer a' = current_buffer a /\
    samples_in_buffer a' = samples_in_buffer a /\
    accel a' = match items (queue_mpu a) with [] => accel a | v :: _ => v end.
Proof.
  intros Hq.
  destruct a as [[fr qu pr co] cb n c sd ac [cap its] s1 s2 s3 b1 b2 b3 b4 mem];
    simpl in *. subst qu.
  unfold app_update. run_task. unfold xQueueReceive; simpl.
  destruct its as [|v0 its]; simpl; eexists; repeat split; reflexivity.
Qed.

(** C5, amended: when [buffer_queue_get_inuse] yields no buffer the
    consumer's turn ends normally, so vTaskApp calls [app_update] again; it
    makes no call and reports nothing, and apart from the mailbox read it
    leaves the state as it was (pool, memory and the three semaphores). *)
Theorem underrun_is_silent K r a :
  bq_queued (data_queue a) = [] ->
  exists a',
    app_update K r a = Ok tt a' [] /\
    semaphore_error a' = semaphore_error a /\
    semaphore_reply a' = semaphore_reply a /\
    semaphore_config a' = semaphore_config a /\
    data_queue a' = data_queue a /\
    buffer_queue_mem a' = buffer_queue_mem a /\
    accel a' = match items (queue_mpu a) with [] => accel a | v :: _ => v end.
Proof.
  intros Hq.
  destruct (app_update_empty K r a Hq)
    as (a' & Hrun & He & Hr & Hc & Hdq & Hmem & _ & _ & Hacc).
  exists a'. repeat split; assumption.
Qed.

Lemma underrun_is_silent_witness :
  bq_queued (data_queue scenario_start) = [] /\
  exists a',
    app_update scenario_h false scenario_start = Ok tt a' [] /\
    semaphore_error a' = semaphore_error scenario_start /\
    semaphore_reply a' = semaphore_reply scenario_start /\
    semaphore_config a' = semaphore_config scenario_start /\
    data_queue a' = data_queue scenario_start /\
    buffer_queue_mem a' = buffer_queue_mem scenario_start /\
    accel a' = match items (queue_mpu scenario_start) with
               | [] => accel scenario_start
               | v :: _ => v
               end.
Proof.
  split; [reflexivity|].
  apply (underrun_is_silent scenario_h false scenario_start). reflexivity.
Defined.

(** A byte times +0.0 is +0.0. *)
Lemma byte_times_zero v :
  0 <= v < 256 -> float_mul (float_of_Z v) float_zero = float_zero.
Proof.
  intros Hv.
  assert (Hall : forallb (fun n =>
            match float_mul (float_of_Z (Z.of_nat n)) float_zero with
            | S754_zero false => true
            | _ => false
            end) (seq 0 256) = true) by (vm_compute; reflexivity).
  rewrite forallb_forall in Hall.
  specialize (Hall (Z.to_nat v)). rewrite Z2Nat.id in Hall by lia.
  assert (Hin : In (Z.to_nat v) (seq 0 256)) by (apply in_seq; lia).
  specialize (Hall Hin).
  destruct (float_mul (float_of_Z v) float_zero) as [[|]| | |]; try discriminate.
  reflexivity.
Qed.

(** C6, as stated, fails: after [app_init], with a buffer of eight samples of
    value 10 queued and no vector sent yet, the consumer forwards eight times
    +0.0, not eight times 10. *)
Lemma initial_scale_not_neutral :
  items (queue_mpu scenario_one_full) = [] /\
  bq_queued (data_queue scenario_one_full) = [0%nat] /\
  buffer_queue_mem scenario_one_full !! 0%nat = Some (repeat 10 8) /\
  exists a' out,
    app_update scenario_h true scenario_one_full = Ok tt a' out /\
    forwarded out = repeat float_zero 8 /\
    forwarded out <> repeat (float_of_Z 10) 8.
Proof.
  split; [reflexivity|]. split; [reflexivity|]. split; [reflexivity|].
  do 2 eexists. split; [vm_compute; reflexivity|].
  split; [reflexivity|]. vm_compute. discriminate.
Qed.

(** With [accel[0]] at +0.0 and nothing in the mailbox, the consumer
    forwards +0.0 for every byte of the buffer, whatever the byte, and
    [accel] stays as it was. *)
Lemma zero_scale_forwards_zero K r a b rest bytes :
  fst (fst (accel a)) = float_zero ->
  items (queue_mpu a) = [] ->
  bq_queued (data_queue a) = b :: rest ->
  buffer_queue_mem a !! b = Some bytes ->
  length bytes = Z.to_nat (APP_DATA_BUF_SIZE K) ->
  Forall (fun v => 0 <= v < 256) bytes ->
  exists a' out,
    app_update K r a = Ok tt a' out /\
    forwarded out = repeat float_zero (Z.to_nat (APP_DATA_BUF_SIZE K)) /\
    accel a' = accel a.
Proof.
  intros Hz Hempty Hq Hmem Hlen Hbytes.
  destruct (app_update_full K r a b rest bytes Hq Hmem Hlen)
    as (a' & out & Hrun & Hacc & Hfw & _).
  rewrite Hempty in Hacc.
  exists a', out. split; [assumption|]. split; [|assumption].
  rewrite Hfw, Hacc, Hz, <- Hlen. clear -Hbytes.
  induction Hbytes as [|v l Hv _ IH]; simpl; [reflexivity|].
  now rewrite byte_times_zero, IH.
Qed.

(** C7, as stated, fails: a byte received before the consumer's turn leaves
    the reply semaphore pending; the consumer then acquires the full buffer
    and forwards its eight samples, no reply arrives within the time-out, and
    yet the error semaphore is not given at all.  The buffer is released. *)
Lemma stale_reply_no_error :
  bq_queued (data_queue scenario_stale_reply) = [0%nat] /\
  semaphore_reply scenario_stale_reply = true /\
  exists a' out,
    app_update scenario_h false scenario_stale_reply = Ok tt a' out /\
    length (forwarded out) = 8%nat /\
    gives SemError out = 0%nat /\
    gives SemError out <> 1%nat /\
    semaphore_error a' = false /\
    bq_free (data_queue a') = [1; 2; 3; 0]%nat.
Proof.
  split; [reflexivity|]. split; [reflexivity|].
  do 2 eexists. split; [vm_compute; reflexivity|].
  repeat split; try reflexivity. vm_compute. discriminate.
Qed.

(** C7, amended: in every turn in which the consumer acquires a full buffer,
    it forwards the [APP_DATA_BUF_SIZE] samples and the buffer is back in Free
    (behind the buffers already free), whatever the outcome of the wait for
    the reply.  The error semaphore is given exactly once when the reply
    semaphore is neither pending when the wait starts nor given before the
    time-out, and not at all otherwise: a reply that came in before the
    transmission counts as its acknowledgment.  The reply semaphore is clear
    afterwards. *)
Theorem buffer_released_error_iff_no_reply K r a b rest bytes :
  bq_queued (data_queue a) = b :: rest ->
  buffer_queue_mem a !! b = Some bytes ->
  length bytes = Z.to_nat (APP_DATA_BUF_SIZE K) ->
  exists a' out,
    app_update K r a = Ok tt a' out /\
    length (forwarded out) = Z.to_nat (APP_DATA_BUF_SIZE K) /\
    bq_free (data_queue a') = bq_free (data_queue a) ++ [b] /\
    bq_queued (data_queue a') = rest /\
    bq_producer (data_queue a') = bq_producer (data_queue a) /\
    bq_consumer (data_queue a') = bq_consumer (data_queue a) /\
    gives SemError out = (if semaphore_reply a || r then 0 else 1)%nat /\
    semaphore_error a' = (if semaphore_reply a || r then semaphore_error a else true) /\
    semaphore_reply a' = false.
Proof.
  intros Hq Hmem Hlen.
  destruct (app_update_full K r a b rest bytes Hq Hmem Hlen)
    as (a' & out & Hrun & _ & Hfw & Hg & Herr & Hrep & Hdq & _).
  exists a', out. rewrite Hdq, Hfw, length_map. simpl.
  repeat split; assumption.
Qed.

Lemma buffer_released_error_iff_no_reply_witness :
  bq_queued (data_queue scenario_one_full) = [0%nat] /\
  buffer_queue_mem scenario_one_full !! 0%nat = Some (repeat 10 8) /\
  length (repeat 10 8) = Z.to_nat (APP_DATA_BUF_SIZE scenario_h) /\
  exists a' out,
    app_update scenario_h false scenario_one_full = Ok tt a' out /\
    length (forwarded out) = Z.to_nat (APP_DATA_BUF_SIZE scenario_h) /\
    bq_free (data_queue a') = bq_free (data_queue scenario_one_full) ++ [0%nat] /\
    bq_queued (data_queue a') = [] /\
    bq_producer (data_queue a') = bq_producer (data_queue scenario_one_full) /\
    bq_consumer (data_queue a') = bq_consumer (data_queue scenario_one_full) /\
    gives SemError out =
      (if semaphore_reply scenario_one_full || false then 0 else 1)%nat /\
    semaphore_error a' =
      (if semaphore_reply scenario_one_full || false
       then semaphore_error scenario_one_full else true) /\
    semaphore_reply a' = false.
Proof.
  split; [reflexivity|]. split; [reflexivity|]. split; [reflexivity|].
  apply (buffer_released_error_iff_no_reply scenario_h false scenario_one_full
           0%nat [] (repeat 10 8)); reflexivity.
Defined.

(** ** The producer *)

(** C2, as stated, fails: with all four buffers queued and none free, the
    producer's turn returns the oldest queued buffer to Free and ends holding
    no buffer; the memory is untouched, no sample is stored. *)
Lemma reclaim_leaves_producer_without_buffer :
  current_buffer scenario_pool_full = None /\
  bq_free (data_queue scenario_pool_full) = [] /\
  bq_queued (data_queue scenario_pool_full) = [0; 1; 2; 3]%nat /\
  exists a',
    adc_update scenario_h 77 scenario_pool_full = Ok tt a' [] /\
    current_buffer a' = None /\
    bq_free (data_queue a') = [0%nat] /\
    bq_queued (data_queue a') = [1; 2; 3]%nat /\
    buffer_queue_mem a' = buffer_queue_mem scenario_pool_full.
Proof.
  split; [reflexivity|]. split; [reflexivity|]. split; [reflexivity|].
  eexists. split; [vm_compute; reflexivity|]. repeat split; reflexivity.
Qed.

(** The producer's turn when it holds no buffer and one is Free: it takes the
    first Free buffer, stores the sample at index 0, and queues the buffer at
    once only if a buffer holds a single sample. *)
Lemma adc_update_acquire K v a b rest bytes :
  current_buffer a = None ->
  bq_free (data_queue a) = b :: rest ->
  buffer_queue_mem a !! b = Some bytes ->
  (0 < length bytes)%nat ->
  0 < APP_DATA_BUF_SIZE K ->
  exists a',
    adc_update K v a = Ok tt a' [] /\
    buffer_queue_mem a' = <[b := <[0%nat := v mod 256]> bytes]> (buffer_queue_mem a) /\
    samples_in_buffer a' = 1 /\
    current_buffer a' = (if 1 =? APP_DATA_BUF_SIZE K then None else Some b) /\
    data_queue a' =
      (if 1 =? APP_DATA_BUF_SIZE K
       then mkBufferQueue rest (bq_queued (data_queue a) ++ [b])
              (bq_producer (data_queue a)) (bq_consumer (data_queue a))
       else mkBufferQueue rest (bq_queued (data_queue a))
              (b :: bq_producer (data_queue a)) (bq_consumer (data_queue a))).
Proof.
  intros Hcb Hfree Hmem Hlen Hsize.
  destruct a as [[fr qu pr co] cb n c sd ac q s1 s2 s3 b1 b2 b3 b4 mem];
    simpl in *. subst cb fr.
  destruct bytes as [|x bytes]; [simpl in Hlen; lia|].
  unfold adc_update, adc_acquire, adc_sample. run_task. unfold_setters; simpl.
  unfold buf_store; simpl. rewrite Hmem. simpl.
  destruct (Z.ltb_spec 0 (APP_DATA_BUF_SIZE K)); [|lia]. simpl.
  match goal with |- context [if ?c then _ else _] => destruct c end; simpl.
  - unfold buffer_queue_push; simpl. rewrite Nat.eqb_refl.
    eexists; repeat split; reflexivity.
  - eexists; repeat split; reflexivity.
Qed.

(** C2, amended: when the producer holds no buffer, none is Free and [b] is
    the oldest Queued buffer, its turn moves [b] from Queued to Free without
    it being forwarded, resets the fill counter to 0, stores no sample and ends
    holding no buffer: there is no second acquire in that turn.  The acquire
    is retried by the next turn, which (the pool untouched in between, and a
    buffer holding more than one sample) takes [b], stores its sample at
    index 0 and leaves the counter at 1. *)
Theorem reclaim_then_retry_next_turn K v v' a b rest bytes :
  current_buffer a = None ->
  bq_free (data_queue a) = [] ->
  bq_queued (data_queue a) = b :: rest ->
  buffer_queue_mem a !! b = Some bytes ->
  (0 < length bytes)%nat ->
  1 < APP_DATA_BUF_SIZE K ->
  exists a' a'',
    adc_update K v a = Ok tt a' [] /\
    current_buffer a' = None /\
    samples_in_buffer a' = 0 /\
    buffer_queue_mem a' = buffer_queue_mem a /\
    data_queue a' =
      mkBufferQueue [b] rest (bq_producer (data_queue a))
        (bq_consumer (data_queue a)) /\
    adc_update K v' a' = Ok tt a'' [] /\
    current_buffer a'' = Some b /\
    samples_in_buffer a'' = 1 /\
    buffer_queue_mem a'' =
      <[b := <[0%nat := v' mod 256]> bytes]> (buffer_queue_mem a) /\
    data_queue a'' =
      mkBufferQueue [] rest (b :: bq_producer (data_queue a))
        (bq_consumer (data_queue a)).
Proof.
  intros Hcb Hfree Hq Hmem Hlen Hsize.
  assert (H1 : exists a',
    adc_update K v a = Ok tt a' [] /\
    current_buffer a' = None /\
    samples_in_buffer a' = 0 /\
    buffer_queue_mem a' = buffer_queue_mem a /\
    data_queue a' =
      mkBufferQueue [b] rest (bq_producer (data_queue a))
        (bq_consumer (data_queue a))).
  { destruct a as [[fr qu pr co] cb n c sd ac q s1 s2 s3 b1 b2 b3 b4 mem];
      simpl in *. subst cb fr qu.
    exists (mkApp (mkBufferQueue [b] rest pr co) None 0 c sd ac q s1 s2 s3
              b1 b2 b3 b4 mem).
    split; [|repeat split; reflexivity].
    cbv [adc_update adc_acquire adc_sample bind ret gets modify data_queue_get_avail
         data_queue_get_inuse data_queue_return buffer_queue_get_avail
         buffer_queue_get_inuse buffer_queue_return remove_first
         set_data_queue set_current_buffer set_samples_in_buffer
         data_queue current_buffer samples_in_buffer config config_sd_present
         accel queue_mpu semaphore_config semaphore_error semaphore_reply
         button_left button_right button_up button_down buffer_queue_mem
         bq_free bq_queued bq_producer bq_consumer app].
    now rewrite Nat.eqb_refl. }
  destruct H1 as (a' & Hrun & Hcb' & Hn' & Hmem' & Hdq').
  destruct (adc_update_acquire K v' a' b [] bytes) as (a'' & Hrun2 & Hm2 & Hn2 & Hcb2 & Hdq2);
    try assumption; try lia.
  { now rewrite Hdq'. }
  { now rewrite Hmem'. }
  destruct (Z.eqb_spec 1 (APP_DATA_BUF_SIZE K)); [lia|].
  exists a', a''. rewrite Hdq' in Hdq2. simpl in Hdq2. rewrite Hmem' in Hm2.
  repeat split; assumption.
Qed.

Lemma reclaim_then_retry_next_turn_witness :
  current_buffer scenario_pool_full = None /\
  bq_free (data_queue scenario_pool_full) = [] /\
  bq_queued (data_queue scenario_pool_full) = [0; 1; 2; 3]%nat /\
  buffer_queue_mem scenario_pool_full !! 0%nat = Some [0; 1; 2; 3; 4; 5; 6; 7] /\
  (0 < length [0; 1; 2; 3; 4; 5; 6; 7])%nat /\
  1 < APP_DATA_BUF_SIZE scenario_h /\
  exists a' a'',
    adc_update scenario_h 77 scenario_pool_full = Ok tt a' [] /\
    current_buffer a' = None /\
    samples_in_buffer a' = 0 /\
    buffer_queue_mem a' = buffer_queue_mem scenario_pool_full /\
    data_queue a' =
      mkBufferQueue [0%nat] [1; 2; 3]%nat
        (bq_producer (data_queue scenario_pool_full))
        (bq_consumer (data_queue scenario_pool_full)) /\
    adc_update scenario_h 78 a' = Ok tt a'' [] /\
    current_buffer a'' = Some 0%nat /\
    samples_in_buffer a'' = 1 /\
    buffer_queue_mem a'' =
      <[0%nat := <[0%nat := 78 mod 256]> [0; 1; 2; 3; 4; 5; 6; 7]]>
        (buffer_queue_mem scenario_pool_full) /\
    data_queue a'' =
      mkBufferQueue [] [1; 2; 3]%nat
        (0%nat :: bq_producer (data_queue scenario_pool_full))
        (bq_consumer (data_queue scenario_pool_full)).
Proof.
  split; [reflexivity|]. split; [reflexivity|]. split; [reflexivity|].
  split; [reflexivity|]. split; [simpl; lia|]. split; [reflexivity|].
  apply (reclaim_then_retry_next_turn scenario_h 77 78 scenario_pool_full
           0%nat [1; 2; 3]%nat [0; 1; 2; 3; 4; 5; 6; 7]);
    try reflexivity. simpl; lia.
Defined.


(** Scenario A with a consumer that has acquired nothing: all four buffers are
    Queued when the fifth is due, so the buffer the producer discards is then
    the 1st one queued, and buffers 2, 3, 4, 5 can be acquired in that
    order. *)
Lemma scenario_A_idle_consumer (g : nat -> nat -> Z) (x : Z) :
  exists a4 a4' a5,
    iterate (adc_update scenario_h)
      (samples g 1 ++ samples g 2 ++ samples g 3 ++ samples g 4)
      scenario_start = Ok tt a4 [] /\
    bq_free (data_queue a4) = [] /\
    acquire_all 5 (data_queue a4) (buffer_queue_mem a4) =
      [stored g 1; stored g 2; stored g 3; stored g 4] /\
    adc_update scenario_h x a4 = Ok tt a4' [] /\
    acquire_all 5 (data_queue a4') (buffer_queue_mem a4') =
      [stored g 2; stored g 3; stored g 4] /\
    iterate (adc_update scenario_h) (samples g 5) a4' = Ok tt a5 [] /\
    acquire_all 5 (data_queue a5) (buffer_queue_mem a5) =
      [stored g 2; stored g 3; stored g 4; stored g 5].
Proof.
  do 3 eexists.
  split; [cbv -[Z.modulo]; reflexivity|].
  split; [reflexivity|].
  split; [cbv -[Z.modulo]; reflexivity|].
  split; [cbv -[Z.modulo]; reflexivity|].
  split; [cbv -[Z.modulo]; reflexivity|].
  split; [cbv -[Z.modulo]; reflexivity|].
  cbv -[Z.modulo]; reflexivity.
Qed.

(** ** The invariant of the pool and the producer's writes *)

Lemma remove_first_Forall (P : buffer -> Prop) b l l' :
  remove_first b l = Some l' -> Forall P l -> Forall P l'.
Proof.
  revert l'. induction l as [|x l IH]; intros l' Hr Hl; [discriminate|].
  simpl in Hr. inversion Hl as [|? ? Hx Hl']; subst.
  destruct (Nat.eqb x b).
  - now inversion Hr; subst.
  - destruct (remove_first b l) as [r|]; [|discriminate].
    inversion Hr; subst. constructor; [assumption|now apply IH].
Qed.

Ltac task_cbv :=
  cbv [adc_update adc_acquire adc_sample app_update adc_reload_config
       bluetooth_update vTaskConfig_init vTaskConfig_iter vTaskError_iter
       vTaskMPU_iter buttons_update config_update
       bind ret gets modify emit semaphore_give semaphore_take config_write
       messages_print Board_LED_Set bluetooth_write buf_store
       xSemaphoreTake xSemaphoreGive
       data_queue_get_avail data_queue_get_inuse data_queue_return
       data_queue_push buffer_queue_get_avail buffer_queue_get_inuse
       buffer_queue_return buffer_queue_push
       set_data_queue set_current_buffer set_samples_in_buffer set_config
       set_config_sd_present set_accel set_queue_mpu set_buttons
       set_buffer_queue_mem set_semaphore get_semaphore
       data_queue current_buffer samples_in_buffer config config_sd_present
       accel queue_mpu semaphore_config semaphore_error semaphore_reply
       button_left button_right button_up button_down buffer_queue_mem
       bq_free bq_queued bq_producer bq_consumer app buffer].

Ltac pool_solve :=
  unfold pool_wf in *; cbn [bq_free bq_queued bq_producer bq_consumer] in *;
  rewrite ?Forall_app, ?Forall_cons, ?Forall_nil in *;
  rewrite ?length_insert; intuition (eauto using remove_first_Forall).

(** Storing one sample in the held buffer: in bounds, and the invariant is
    kept whether or not the buffer becomes full. *)
Lemma adc_sample_wf K v b n fr qu pr co c sd ac q s1 s2 s3 b1 b2 b3 b4 mem :
  pool_wf (length mem) (mkBufferQueue fr qu pr co) ->
  mem_wf K mem ->
  (b < length mem)%nat ->
  0 <= n < APP_DATA_BUF_SIZE K ->
  exists a',
    adc_sample K (Some b) v
      (mkApp (mkBufferQueue fr qu pr co) (Some b) n c sd ac q s1 s2 s3
         b1 b2 b3 b4 mem) = Ok tt a' [] /\
    app_wf K a'.
Proof.
  intros Hpool Hmem Hb Hn.
  destruct (lookup_lt_is_Some_2 mem b Hb) as [bytes Hbytes].
  assert (Hlen : length bytes = Z.to_nat (APP_DATA_BUF_SIZE K)).
  { unfold mem_wf in Hmem. rewrite Forall_lookup in Hmem. eapply Hmem; eassumption. }
  destruct (lookup_lt_is_Some_2 bytes (Z.to_nat n)) as [old Hold]; [lia|].
  assert (Hmem' : mem_wf K (<[b := <[Z.to_nat n := v mod 256]> bytes]> mem)).
  { unfold mem_wf. apply Forall_insert; [assumption|]. now rewrite length_insert. }
  task_cbv. rewrite Hbytes, Hold.
  destruct (Z.leb_spec 0 n); [|lia].
  destruct (Z.ltb_spec n (APP_DATA_BUF_SIZE K)); [|lia].
  cbn [andb].
  destruct (Z.eqb_spec (n + 1) (APP_DATA_BUF_SIZE K)) as [Hfull|Hmore].
  - destruct (remove_first b pr) as [pr'|] eqn:Hrm.
    + eexists. split; [reflexivity|].
      split; [|split; [exact Hmem'|intros ? [=]]].
      cbn [data_queue buffer_queue_mem]. pool_solve.
    + eexists. split; [reflexivity|].
      split; [|split; [exact Hmem'|intros ? [=]]].
      cbn [data_queue buffer_queue_mem]. pool_solve.
  - eexists. split; [reflexivity|].
    split; [|split; [exact Hmem'|]].
    + cbn [data_queue buffer_queue_mem]. pool_solve.
    + intros b' [= <-]. cbn [buffer_queue_mem samples_in_buffer].
      rewrite length_insert. split; [assumption|lia].
Qed.

(** A turn of the producer from a state that satisfies the invariant stores
    its sample, if any, within the buffer, and keeps the invariant. *)
Lemma adc_update_wf K v a :
  0 < APP_DATA_BUF_SIZE K ->
  app_wf K a ->
  exists a', adc_update K v a = Ok tt a' [] /\ app_wf K a'.
Proof.
  intros Hsize (Hpool & Hmem & Hprod).
  destruct a as [[fr qu pr co] cb n c sd ac q s1 s2 s3 b1 b2 b3 b4 mem].
  cbn [data_queue buffer_queue_mem] in Hpool, Hmem.
  destruct cb as [b|].
  - destruct (Hprod b eq_refl) as [Hb Hn].
    cbn [buffer_queue_mem samples_in_buffer] in Hb, Hn.
    destruct (adc_sample_wf K v b n fr qu pr co c sd ac q s1 s2 s3 b1 b2 b3 b4
                mem Hpool Hmem Hb Hn) as (a' & Hrun & Hwf).
    exists a'. split; [|assumption].
    unfold adc_update. eapply (bind_ok _ _ _ _ _ [] _ _ []); [reflexivity|exact Hrun].
  - destruct fr as [|b fr].
    + destruct qu as [|b qu].
      * eexists. split; [reflexivity|].
        split; [exact Hpool|split; [exact Hmem|intros ? [=]]].
      * eexists. split.
        { task_cbv. cbn [remove_first]. rewrite Nat.eqb_refl. reflexivity. }
        split; [|split; [exact Hmem|intros ? [=]]].
        cbn [data_queue buffer_queue_mem]. pool_solve.
    + assert (Hb : (b < length mem)%nat) by pool_solve.
      assert (Hpool' : pool_wf (length mem) (mkBufferQueue fr qu (b :: pr) co))
        by pool_solve.
      destruct (adc_sample_wf K v b 0 fr qu (b :: pr) co c sd ac q s1 s2 s3
                  b1 b2 b3 b4 mem Hpool' Hmem Hb) as (a' & Hrun & Hwf); [lia|].
      exists a'. split; [|assumption].
      unfold adc_update. eapply (bind_ok _ _ _ _ _ [] _ _ []); [reflexivity|exact Hrun].
Qed.

Lemma producer_frame_wf K a a' :
  producer_frame a a' -> app_wf K a -> app_wf K a'.
Proof.
  intros (Hdq & Hmem & Hcb & Hn) (Hpool & Hmwf & Hprod).
  unfold app_wf, producer_wf. rewrite Hdq, Hmem, Hcb, Hn.
  split; [assumption|]. split; [assumption|]. exact Hprod.
Qed.

Lemma adc_reload_frame K d a d' a' out :
  adc_reload_config K d a = Ok d' a' out -> producer_frame a a'.
Proof.
  destruct a as [dq cb n c sd ac q s1 s2 s3 b1 b2 b3 b4 mem].
  task_cbv. cbv [orb]. destruct s1; cbv beta iota; intros [= <- <- <-];
    repeat split; reflexivity.
Qed.

Lemma bluetooth_update_frame r a a' out :
  bluetooth_update r a = Ok tt a' out -> producer_frame a a'.
Proof.
  destruct a as [dq cb n c sd ac q s1 s2 s3 b1 b2 b3 b4 mem].
  task_cbv. destruct r; cbv beta iota; intros [= <- <-];
    repeat split; reflexivity.
Qed.

Lemma vTaskError_frame a a' out :
  vTaskError_iter a = Ok tt a' out -> producer_frame a a'.
Proof.
  destruct a as [dq cb n c sd ac q s1 s2 s3 b1 b2 b3 b4 mem].
  task_cbv. cbv beta iota. intros [= <- <-]. repeat split; reflexivity.
Qed.

Lemma vTaskMPU_frame v a a' out :
  vTaskMPU_iter v a = Ok tt a' out -> producer_frame a a'.
Proof.
  destruct a as [dq cb n c sd ac q s1 s2 s3 b1 b2 b3 b4 mem].
  task_cbv. intros [= <- <-]. repeat split; reflexivity.
Qed.

Lemma vTaskConfig_init_frame b r c0 a a' out :
  vTaskConfig_init b r c0 a = Ok tt a' out -> producer_frame a a'.
Proof.
  destruct a as [dq cb n c sd ac q s1 s2 s3 b1 b2 b3 b4 mem].
  task_cbv. destruct (r <? 0); cbv beta iota; intros [= <- <-];
    repeat split; reflexivity.
Qed.

Lemma vTaskConfig_iter_frame K e a a' out :
  vTaskConfig_iter K e a = Ok tt a' out -> producer_frame a a'.
Proof.
  destruct a as [dq cb n [p] sd ac q s1 s2 s3 b1 b2 b3 b4 mem].
  destruct e as [[le lh] [re rh] u d w].
  unfold vTaskConfig_iter, buttons_update, config_update. run_task.
  destruct le, lh, re, rh; simpl;
    repeat match goal with
           | |- context [if ?c then _ else _] => destruct c; simpl
           end;
    intros [= <- <-]; repeat split; reflexivity.
Qed.

Lemma app_update_wf K r a a' out :
  app_update K r a = Ok tt a' out -> app_wf K a -> app_wf K a'.
Proof.
  intros Hrun Hwf. destruct (bq_queued (data_queue a)) as [|b rest] eqn:Hq.
  - destruct (app_update_empty K r a Hq)
      as (a2 & Hrun2 & _ & _ & _ & Hdq & Hmem & Hcb & Hn & _).
    rewrite Hrun in Hrun2. injection Hrun2 as -> _.
    apply (producer_frame_wf K a); [|assumption]. repeat split; assumption.
  - destruct Hwf as (Hpool & Hmwf & Hprod).
    assert (Hb : (b < length (buffer_queue_mem a))%nat).
    { unfold pool_wf in Hpool. rewrite Hq in Hpool.
      rewrite !Forall_app, Forall_cons in Hpool. tauto. }
    destruct (lookup_lt_is_Some_2 _ _ Hb) as [bytes Hbytes].
    assert (Hlen : length bytes = Z.to_nat (APP_DATA_BUF_SIZE K)).
    { unfold mem_wf in Hmwf. rewrite Forall_lookup in Hmwf. eapply Hmwf; eassumption. }
    destruct (app_update_full K r a b rest bytes Hq Hbytes Hlen)
      as (a2 & out2 & Hrun2 & _ & _ & _ & _ & _ & Hdq & Hmem & Hcb & Hn).
    rewrite Hrun in Hrun2. injection Hrun2 as -> _.
    unfold app_wf, producer_wf. rewrite Hdq, Hmem, Hcb, Hn.
    split; [|split; [assumption|exact Hprod]].
    unfold pool_wf in *. rewrite Hq in Hpool. cbn [bq_free bq_queued bq_producer bq_consumer].
    rewrite !Forall_app, ?Forall_cons, ?Forall_nil in *. tauto.
Qed.

Lemma app_start_wf K app : app_wf K (vTaskADC_init (app_init K app)).
Proof.
  split; [|split].
  - cbn. unfold pool_wf. cbn. rewrite !app_nil_r, length_replicate.
    apply Forall_forall. intros b Hb. apply elem_of_seq in Hb. lia.
  - cbn. apply Forall_replicate. apply length_replicate.
  - intros b [=].
Qed.

Lemma task_step_wf K a a' :
  0 < APP_DATA_BUF_SIZE K -> task_step K a a' -> app_wf K a -> app_wf K a'.
Proof.
  intros Hsize Hstep Hwf. destruct Hstep as
    [v a a' out H|d a d' a' out H|r a a' out H|r a a' out H
    |b r c a a' out H|e a a' out H|a a' out H|v a a' out H].
  - destruct (adc_update_wf K v a Hsize Hwf) as (a2 & Hrun & Hwf2).
    rewrite H in Hrun. now injection Hrun as -> _.
  - eapply producer_frame_wf; [eapply adc_reload_frame|]; eassumption.
  - eapply app_update_wf; eassumption.
  - eapply producer_frame_wf; [eapply bluetooth_update_frame|]; eassumption.
  - eapply producer_frame_wf; [eapply vTaskConfig_init_frame|]; eassumption.
  - eapply producer_frame_wf; [eapply vTaskConfig_iter_frame|]; eassumption.
  - eapply producer_frame_wf; [eapply vTaskError_frame|]; eassumption.
  - eapply producer_frame_wf; [eapply vTaskMPU_frame|]; eassumption.
Qed.

Lemma reachable_wf K a :
  0 < APP_DATA_BUF_SIZE K -> reachable K a -> app_wf K a.
Proof.
  intros Hsize Hr. induction Hr as [app|a a' _ IH Hstep].
  - apply app_start_wf.
  - now apply (task_step_wf K a a').
Qed.

(** C10: in every state the system reaches once [app_init] has run and
    vTaskADC is in its loop, whatever the six tasks have done in between, a
    held buffer comes with a fill counter in [0, APP_DATA_BUF_SIZE), and the
    producer's next turn does not fault: the sample it stores, if any, goes
    to an index within [0, APP_DATA_BUF_SIZE) of a buffer of that size (index
    0 when the buffer was acquired in that turn).  Every buffer keeps its
    size, and the state that follows is reachable again. *)
Theorem producer_writes_in_bounds K v a :
  0 < APP_DATA_BUF_SIZE K ->
  reachable K a ->
  (forall b, current_buffer a = Some b ->
     0 <= samples_in_buffer a < APP_DATA_BUF_SIZE K) /\
  mem_wf K (buffer_queue_mem a) /\
  exists a',
    adc_update K v a = Ok tt a' [] /\
    mem_wf K (buffer_queue_mem a') /\
    reachable K a'.
Proof.
  intros Hsize Hr.
  destruct (reachable_wf K a Hsize Hr) as (Hpool & Hmem & Hprod).
  split; [intros b Hb; now apply (Hprod b)|]. split; [assumption|].
  destruct (adc_update_wf K v a Hsize (conj Hpool (conj Hmem Hprod)))
    as (a' & Hrun & _ & Hmem' & _).
  exists a'. split; [assumption|]. split; [assumption|].
  apply (reach_step K a a' Hr). now apply (step_adc_update K v a a' []).
Qed.

Lemma producer_writes_in_bounds_witness :
  0 < APP_DATA_BUF_SIZE scenario_h /\
  reachable scenario_h scenario_start /\
  (forall b, current_buffer scenario_start = Some b ->
     0 <= samples_in_buffer scenario_start < APP_DATA_BUF_SIZE scenario_h) /\
  mem_wf scenario_h (buffer_queue_mem scenario_start) /\
  exists a',
    adc_update scenario_h 200 scenario_start = Ok tt a' [] /\
    mem_wf scenario_h (buffer_queue_mem a') /\
    reachable scenario_h a'.
Proof.
  split; [reflexivity|].
  split; [exact (reach_start scenario_h app_zeroed)|].
  apply (producer_writes_in_bounds scenario_h 200 scenario_start).
  - reflexivity.
  - exact (reach_start scenario_h app_zeroed).
Defined.

(** * Further properties of app.c *)

(** ** The producer, turn by turn *)

Lemma store_run_spec vs : forall k bytes,
  (k + length vs <= length bytes)%nat ->
  store_run k vs bytes =
    take k bytes ++ map (fun v => v mod 256) vs ++ drop (k + length vs) bytes.
Proof.
  induction vs as [|v vs IH]; intros k bytes Hlen; simpl in *.
  - now rewrite Nat.add_0_r, take_drop.
  - rewrite IH by (rewrite length_insert; lia).
    rewrite (take_S_r _ k (v mod 256)) by (apply list_lookup_insert_eq; lia).
    rewrite take_insert_ge by lia.
    rewrite drop_insert_lt by lia.
    rewrite <- app_assoc. simpl.
    replace (k + S (length vs))%nat with (S (k + length vs)) by lia. reflexivity.
Qed.

Lemma store_run_all vs bytes :
  length vs = length bytes ->
  store_run 0 vs bytes = map (fun v => v mod 256) vs.
Proof.
  intros Hlen. rewrite store_run_spec by (simpl; lia). simpl.
  rewrite drop_ge by lia. apply app_nil_r.
Qed.

(** One turn with a buffer in hand: the sample goes to index
    [samples_in_buffer], and the buffer is queued when that was its last
    free byte. *)
Lemma adc_update_held K v dq b n c sd ac q s1 s2 s3 b1 b2 b3 b4 mem bytes :
  mem !! b = Some bytes ->
  0 <= n < APP_DATA_BUF_SIZE K ->
  (Z.to_nat n < length bytes)%nat ->
  adc_update K v (mkApp dq (Some b) n c sd ac q s1 s2 s3 b1 b2 b3 b4 mem) =
    Ok tt
      (if n + 1 =? APP_DATA_BUF_SIZE K
       then mkApp (buffer_queue_push dq b) None (n + 1) c sd ac q s1 s2 s3
              b1 b2 b3 b4 (<[b := <[Z.to_nat n := v mod 256]> bytes]> mem)
       else mkApp dq (Some b) (n + 1) c sd ac q s1 s2 s3
              b1 b2 b3 b4 (<[b := <[Z.to_nat n := v mod 256]> bytes]> mem))
      [].
Proof.
  intros Hmem Hn Hlen.
  destruct (lookup_lt_is_Some_2 bytes (Z.to_nat n) Hlen) as [old Hold].
  destruct dq as [fr qu pr co]. unfold buffer in *.
  task_cbv. rewrite Hmem, Hold.
  destruct (Z.leb_spec 0 n); [|lia].
  destruct (Z.ltb_spec n (APP_DATA_BUF_SIZE K)); [|lia].
  cbn [andb]. destruct (n + 1 =? APP_DATA_BUF_SIZE K); [|reflexivity].
  destruct (remove_first b pr); reflexivity.
Qed.

(** A turn that finds a Free buffer continues as a turn that holds it with
    an empty fill counter. *)
Lemma adc_update_take K v fr qu pr co b n c sd ac q s1 s2 s3 b1 b2 b3 b4 mem :
  adc_update K v
    (mkApp (mkBufferQueue (b :: fr) qu pr co) None n c sd ac q s1 s2 s3
       b1 b2 b3 b4 mem) =
  adc_update K v
    (mkApp (mkBufferQueue fr qu (b :: pr) co) (Some b) 0 c sd ac q s1 s2 s3
       b1 b2 b3 b4 mem).
Proof. reflexivity. Qed.

(** Several turns into the held buffer, starting at fill counter [k]. *)
Lemma adc_fill_from K vs : forall (k : nat) bytes dq b c sd ac q s1 s2 s3 b1 b2 b3 b4 mem,
  mem !! b = Some bytes ->
  (k + length vs <= length bytes)%nat ->
  Z.of_nat (k + length vs) <= APP_DATA_BUF_SIZE K ->
  vs <> [] ->
  iterate (adc_update K) vs
    (mkApp dq (Some b) (Z.of_nat k) c sd ac q s1 s2 s3 b1 b2 b3 b4 mem) =
    Ok tt
      (if Z.of_nat (k + length vs) =? APP_DATA_BUF_SIZE K
       then mkApp (buffer_queue_push dq b) None (Z.of_nat (k + length vs))
              c sd ac q s1 s2 s3 b1 b2 b3 b4 (<[b := store_run k vs bytes]> mem)
       else mkApp dq (Some b) (Z.of_nat (k + length vs))
              c sd ac q s1 s2 s3 b1 b2 b3 b4 (<[b := store_run k vs bytes]> mem))
      [].
Proof.
  induction vs as [|v vs IH]; intros k bytes dq b c sd ac q s1 s2 s3 b1 b2 b3 b4 mem
    Hmem Hlen Hsize Hne; [congruence|].
  cbn [length] in Hlen, Hsize.
  assert (Hstep := adc_update_held K v dq b (Z.of_nat k) c sd ac q s1 s2 s3
                     b1 b2 b3 b4 mem bytes Hmem).
  rewrite Nat2Z.id in Hstep.
  specialize (Hstep ltac:(lia) ltac:(lia)).
  destruct vs as [|v' vs].
  - cbn [iterate store_run length]. unfold bind. rewrite Hstep. cbn [ret].
    replace (Z.of_nat (k + 1)) with (Z.of_nat k + 1) by lia.
    destruct (Z.of_nat k + 1 =? APP_DATA_BUF_SIZE K); reflexivity.
  - cbn [length] in Hlen, Hsize.
    destruct (Z.eqb_spec (Z.of_nat k + 1) (APP_DATA_BUF_SIZE K)) as [Hfull|_]; [lia|].
    change (iterate (adc_update K) (v :: v' :: vs)) with
      (bind (adc_update K v) (fun _ => iterate (adc_update K) (v' :: vs))).
    unfold bind at 1. rewrite Hstep.
    replace (Z.of_nat k + 1) with (Z.of_nat (S k)) by lia.
    rewrite (IH (S k) (<[k := v mod 256]> bytes)); cbn [length].
    + replace (S k + S (length vs))%nat with (k + S (S (length vs)))%nat by lia.
      rewrite list_insert_insert_eq. cbn [store_run].
      destruct (Z.of_nat (k + S (S (length vs))) =? APP_DATA_BUF_SIZE K); reflexivity.
    + apply list_lookup_insert_eq. eapply lookup_lt_Some; eassumption.
    + rewrite length_insert. lia.
    + lia.
    + discriminate.
Qed.

(** A turn that finds nothing Free gives the oldest Queued buffer back to
    Free and stops there. *)
Lemma adc_update_reclaim K v qu pr co b n c sd ac q s1 s2 s3 b1 b2 b3 b4 mem :
  adc_update K v
    (mkApp (mkBufferQueue [] (b :: qu) pr co) None n c sd ac q s1 s2 s3
       b1 b2 b3 b4 mem) =
  Ok tt
    (mkApp (mkBufferQueue [b] qu pr co) None 0 c sd ac q s1 s2 s3
       b1 b2 b3 b4 mem) [].
Proof. task_cbv. cbn [remove_first]. now rewrite Nat.eqb_refl. Qed.

Lemma adc_fill_fresh K vs fr qu pr co b n c sd ac q s1 s2 s3 b1 b2 b3 b4 mem bytes :
  0 < APP_DATA_BUF_SIZE K ->
  length vs = Z.to_nat (APP_DATA_BUF_SIZE K) ->
  mem !! b = Some bytes ->
  length bytes = Z.to_nat (APP_DATA_BUF_SIZE K) ->
  iterate (adc_update K) vs
    (mkApp (mkBufferQueue (b :: fr) qu pr co) None n c sd ac q s1 s2 s3
       b1 b2 b3 b4 mem) =
  Ok tt
    (mkApp (mkBufferQueue fr (qu ++ [b]) pr co) None (APP_DATA_BUF_SIZE K)
       c sd ac q s1 s2 s3 b1 b2 b3 b4
       (<[b := map (fun v => v mod 256) vs]> mem)) [].
Proof.
  intros Hsize Hvs Hmem Hlen.
  destruct vs as [|v vs]; [simpl in Hvs; lia|].
  assert (Hrun := adc_fill_from K (v :: vs) 0 bytes
                    (mkBufferQueue fr qu (b :: pr) co) b c sd ac q s1 s2 s3
                    b1 b2 b3 b4 mem Hmem).
  rewrite Nat.add_0_l in Hrun.
  specialize (Hrun ltac:(lia) ltac:(lia) ltac:(discriminate)).
  rewrite store_run_all in Hrun by lia.
  replace (Z.of_nat (length (v :: vs))) with (APP_DATA_BUF_SIZE K) in Hrun by lia.
  rewrite Z.eqb_refl in Hrun.
  unfold buffer_queue_push in Hrun.
  cbn [bq_producer bq_free bq_queued bq_consumer remove_first] in Hrun.
  rewrite Nat.eqb_refl in Hrun.
  rewrite <- Hrun. cbn [iterate]. unfold bind.
  now rewrite adc_update_take.
Qed.

(** X1.  Filling a buffer: when the producer holds no buffer and [b] is the
    first Free one, [APP_DATA_BUF_SIZE] turns store the low bytes of the ADC
    values in [b] in reading order, put [b] at the back of Queued and leave
    the producer without a buffer; no call is made and the fields of the
    other tasks are not written. *)
Theorem adc_fill_and_queue K vs a b rest bytes :
  0 < APP_DATA_BUF_SIZE K ->
  length vs = Z.to_nat (APP_DATA_BUF_SIZE K) ->
  current_buffer a = None ->
  bq_free (data_queue a) = b :: rest ->
  buffer_queue_mem a !! b = Some bytes ->
  length bytes = Z.to_nat (APP_DATA_BUF_SIZE K) ->
  exists a',
    iterate (adc_update K) vs a = Ok tt a' [] /\
    current_buffer a' = None /\
    buffer_queue_mem a' =
      <[b := map (fun v => v mod 256) vs]> (buffer_queue_mem a) /\
    data_queue a' =
      mkBufferQueue rest (bq_queued (data_queue a) ++ [b])
        (bq_producer (data_queue a)) (bq_consumer (data_queue a)) /\
    producer_leaves a a'.
Proof.
  intros Hsize Hvs Hcb Hfree Hmem Hlen.
  destruct a as [[fr qu pr co] cb n c sd ac q s1 s2 s3 b1 b2 b3 b4 mem].
  cbn in Hcb, Hfree, Hmem. subst cb fr.
  eexists. split; [now apply (adc_fill_fresh K vs rest qu pr co b n c sd ac q
                                s1 s2 s3 b1 b2 b3 b4 mem bytes)|].
  repeat split; reflexivity.
Qed.

Lemma adc_fill_and_queue_witness :
  0 < APP_DATA_BUF_SIZE scenario_h /\
  length (samples tagged 1) = Z.to_nat (APP_DATA_BUF_SIZE scenario_h) /\
  current_buffer scenario_start = None /\
  bq_free (data_queue scenario_start) = [0; 1; 2; 3]%nat /\
  buffer_queue_mem scenario_start !! 0%nat = Some (replicate 8 0) /\
  length (replicate 8 0) = Z.to_nat (APP_DATA_BUF_SIZE scenario_h) /\
  exists a',
    iterate (adc_update scenario_h) (samples tagged 1) scenario_start = Ok tt a' [] /\
    current_buffer a' = None /\
    buffer_queue_mem a' =
      <[0%nat := map (fun v => v mod 256) (samples tagged 1)]>
        (buffer_queue_mem scenario_start) /\
    data_queue a' =
      mkBufferQueue [1; 2; 3]%nat (bq_queued (data_queue scenario_start) ++ [0%nat])
        (bq_producer (data_queue scenario_start))
        (bq_consumer (data_queue scenario_start)) /\
    producer_leaves scenario_start a'.
Proof.
  split; [reflexivity|]. split; [reflexivity|]. split; [reflexivity|].
  split; [reflexivity|]. split; [reflexivity|]. split; [reflexivity|].
  apply (adc_fill_and_queue scenario_h (samples tagged 1) scenario_start 0%nat
           [1; 2; 3]%nat (replicate 8 0)); reflexivity.
Defined.

(** X2.  Overflow cycle: with nothing Free, no buffer in hand and [b] the
    oldest Queued buffer, one turn plus [APP_DATA_BUF_SIZE] turns move [b]
    from the front of Queued to its back, now holding the new samples; the
    ADC value of the first of these turns is never stored, and Free is empty
    again. *)
Theorem adc_overflow_cycle K x vs a b rest bytes :
  0 < APP_DATA_BUF_SIZE K ->
  length vs = Z.to_nat (APP_DATA_BUF_SIZE K) ->
  current_buffer a = None ->
  bq_free (data_queue a) = [] ->
  bq_queued (data_queue a) = b :: rest ->
  buffer_queue_mem a !! b = Some bytes ->
  length bytes = Z.to_nat (APP_DATA_BUF_SIZE K) ->
  exists a',
    iterate (adc_update K) (x :: vs) a = Ok tt a' [] /\
    current_buffer a' = None /\
    buffer_queue_mem a' =
      <[b := map (fun v => v mod 256) vs]> (buffer_queue_mem a) /\
    data_queue a' =
      mkBufferQueue [] (rest ++ [b])
        (bq_producer (data_queue a)) (bq_consumer (data_queue a)) /\
    producer_leaves a a'.
Proof.
  intros Hsize Hvs Hcb Hfree Hq Hmem Hlen.
  destruct a as [[fr qu pr co] cb n c sd ac q s1 s2 s3 b1 b2 b3 b4 mem].
  cbn in Hcb, Hfree, Hq, Hmem. subst cb fr qu.
  eexists. split.
  - cbn [iterate]. unfold bind at 1. rewrite adc_update_reclaim.
    rewrite (adc_fill_fresh K vs [] rest pr co b 0 c sd ac q s1 s2 s3
               b1 b2 b3 b4 mem bytes Hsize Hvs Hmem Hlen).
    reflexivity.
  - repeat split; reflexivity.
Qed.

Lemma adc_overflow_cycle_witness :
  0 < APP_DATA_BUF_SIZE scenario_h /\
  length (samples tagged 5) = Z.to_nat (APP_DATA_BUF_SIZE scenario_h) /\
  current_buffer scenario_pool_full = None /\
  bq_free (data_queue scenario_pool_full) = [] /\
  bq_queued (data_queue scenario_pool_full) = [0; 1; 2; 3]%nat /\
  buffer_queue_mem scenario_pool_full !! 0%nat = Some [0; 1; 2; 3; 4; 5; 6; 7] /\
  length [0; 1; 2; 3; 4; 5; 6; 7] = Z.to_nat (APP_DATA_BUF_SIZE scenario_h) /\
  exists a',
    iterate (adc_update scenario_h) (99 :: samples tagged 5) scenario_pool_full
      = Ok tt a' [] /\
    current_buffer a' = None /\
    buffer_queue_mem a' =
      <[0%nat := map (fun v => v mod 256) (samples tagged 5)]>
        (buffer_queue_mem scenario_pool_full) /\
    data_queue a' =
      mkBufferQueue [] ([1; 2; 3]%nat ++ [0%nat])
        (bq_producer (data_queue scenario_pool_full))
        (bq_consumer (data_queue scenario_pool_full)) /\
    producer_leaves scenario_pool_full a'.
Proof.
  split; [reflexivity|]. split; [reflexivity|]. split; [reflexivity|].
  split; [reflexivity|]. split; [reflexivity|]. split; [reflexivity|].
  split; [reflexivity|].
  apply (adc_overflow_cycle scenario_h 99 (samples tagged 5) scenario_pool_full
           0%nat [1; 2; 3]%nat [0; 1; 2; 3; 4; 5; 6; 7]); reflexivity.
Defined.

(** X3.  Starvation: with no buffer in hand, nothing Free and nothing Queued,
    the producer's turn ends normally without a buffer: it reads no sample,
    makes no call and raises no signal; the pool and the memory are as
    before and the fill counter is 0. *)
Theorem adc_starved_turn_is_idle K v a :
  current_buffer a = None ->
  bq_free (data_queue a) = [] ->
  bq_queued (data_queue a) = [] ->
  exists a',
    adc_update K v a = Ok tt a' [] /\
    current_buffer a' = None /\
    samples_in_buffer a' = 0 /\
    data_queue a' = data_queue a /\
    buffer_queue_mem a' = buffer_queue_mem a /\
    producer_leaves a a'.
Proof.
  intros Hcb Hfree Hq.
  destruct a as [[fr qu pr co] cb n c sd ac q s1 s2 s3 b1 b2 b3 b4 mem].
  cbn in Hcb, Hfree, Hq. subst cb fr qu.
  eexists. split; [reflexivity|]. repeat split; reflexivity.
Qed.

Lemma adc_starved_turn_is_idle_witness :
  current_buffer scenario_consumer_busy = None /\
  bq_free (data_queue scenario_consumer_busy) = [] /\
  bq_queued (data_queue scenario_consumer_busy) = [] /\
  exists a',
    adc_update single_buffer_h 5 scenario_consumer_busy = Ok tt a' [] /\
    current_buffer a' = None /\
    samples_in_buffer a' = 0 /\
    data_queue a' = data_queue scenario_consumer_busy /\
    buffer_queue_mem a' = buffer_queue_mem scenario_consumer_busy /\
    producer_leaves scenario_consumer_busy a'.
Proof.
  split; [reflexivity|]. split; [reflexivity|]. split; [reflexivity|].
  apply (adc_starved_turn_is_idle single_buffer_h 5 scenario_consumer_busy);
    reflexivity.
Defined.

(** ** What holds between the turns of the tasks *)

Lemma adc_update_accounted K v a :
  0 < APP_DATA_BUF_SIZE K ->
  app_wf K a ->
  pool_accounted (APP_DATA_BUF_NMBR K) a ->
  exists a',
    adc_update K v a = Ok tt a' [] /\
    pool_accounted (APP_DATA_BUF_NMBR K) a'.
Proof.
  intros Hsize (Hpool & Hmem & Hprod) (Hco & Hpr & Hperm).
  destruct a as [[fr qu pr co] cb n c sd ac q s1 s2 s3 b1 b2 b3 b4 mem].
  unfold held in *. cbn in Hpool, Hmem, Hco, Hpr, Hperm. subst co pr.
  assert (Hbytes : forall b, (b < length mem)%nat ->
            exists bytes, mem !! b = Some bytes /\
                          length bytes = Z.to_nat (APP_DATA_BUF_SIZE K)).
  { intros b Hb. destruct (lookup_lt_is_Some_2 mem b Hb) as [bytes Hl].
    exists bytes. split; [assumption|].
    unfold mem_wf in Hmem. rewrite Forall_lookup in Hmem. eapply Hmem; eassumption. }
  destruct cb as [b|].
  - destruct (Hprod b eq_refl) as [Hb Hn]. cbn in Hb, Hn.
    destruct (Hbytes b Hb) as (bytes & Hl & Hlen).
    rewrite (adc_update_held K v _ b n c sd ac q s1 s2 s3 b1 b2 b3 b4 mem bytes Hl Hn)
      by lia.
    destruct (n + 1 =? APP_DATA_BUF_SIZE K); eexists; (split; [reflexivity|]).
    + unfold buffer_queue_push, pool_accounted, held. cbn. rewrite Nat.eqb_refl. cbn.
      split; [reflexivity|]. split; [reflexivity|].
      rewrite <- Hperm. solve_Permutation.
    + unfold pool_accounted, held. cbn. repeat split; assumption.
  - destruct fr as [|b fr].
    + destruct qu as [|b qu].
      * eexists. split; [reflexivity|].
        unfold pool_accounted, held. cbn. repeat split; assumption.
      * rewrite adc_update_reclaim. eexists. split; [reflexivity|].
        unfold pool_accounted, held. cbn. split; [reflexivity|]. split; [reflexivity|].
        rewrite <- Hperm. cbn. solve_Permutation.
    + assert (Hb : (b < length mem)%nat).
      { unfold pool_wf in Hpool. cbn in Hpool. now inversion Hpool. }
      destruct (Hbytes b Hb) as (bytes & Hl & Hlen).
      rewrite adc_update_take.
      rewrite (adc_update_held K v _ b 0 c sd ac q s1 s2 s3 b1 b2 b3 b4 mem bytes Hl)
        by (simpl; lia).
      destruct (0 + 1 =? APP_DATA_BUF_SIZE K); eexists; (split; [reflexivity|]).
      * unfold buffer_queue_push, pool_accounted, held. cbn. rewrite Nat.eqb_refl. cbn.
        split; [reflexivity|]. split; [reflexivity|].
        rewrite <- Hperm. cbn. solve_Permutation.
      * unfold pool_accounted, held. cbn. split; [reflexivity|]. split; [reflexivity|].
        rewrite <- Hperm. cbn. solve_Permutation.
Qed.

(** The consumer's turn from a state that satisfies the invariant reads
    within its buffer. *)
Lemma app_update_total K r n a :
  app_wf K a ->
  exists a' out,
    app_update K r a = Ok tt a' out /\
    length (forwarded out) =
      (match bq_queued (data_queue a) with
       | [] => 0%nat
       | _ :: _ => Z.to_nat (APP_DATA_BUF_SIZE K)
       end) /\
    (pool_accounted n a -> pool_accounted n a').
Proof.
  intros (Hpool & Hmwf & Hprod).
  destruct (bq_queued (data_queue a)) as [|b rest] eqn:Hq.
  - destruct (app_update_empty K r a Hq)
      as (a' & Hrun & _ & _ & _ & Hdq & Hmem & Hcb & Hn & _).
    exists a', []. split; [assumption|]. split; [reflexivity|].
    unfold pool_accounted, held. now rewrite Hdq, Hcb.
  - assert (Hb : (b < length (buffer_queue_mem a))%nat).
    { unfold pool_wf in Hpool. rewrite Hq in Hpool.
      rewrite !Forall_app, Forall_cons in Hpool. tauto. }
    destruct (lookup_lt_is_Some_2 _ _ Hb) as [bytes Hbytes].
    assert (Hlen : length bytes = Z.to_nat (APP_DATA_BUF_SIZE K)).
    { unfold mem_wf in Hmwf. rewrite Forall_lookup in Hmwf. eapply Hmwf; eassumption. }
    destruct (app_update_full K r a b rest bytes Hq Hbytes Hlen)
      as (a' & out & Hrun & _ & Hfw & _ & _ & _ & Hdq & Hmem & Hcb & Hn).
    exists a', out. split; [assumption|].
    split; [now rewrite Hfw, length_map|].
    unfold pool_accounted, held. rewrite Hdq, Hcb, Hq. cbn.
    intros (Hco & Hpr & Hperm). split; [assumption|]. split; [assumption|].
    rewrite <- Hperm. solve_Permutation.
Qed.

Lemma producer_frame_accounted n a a' :
  producer_frame a a' -> pool_accounted n a -> pool_accounted n a'.
Proof.
  intros (Hdq & _ & Hcb & _). unfold pool_accounted, held. now rewrite Hdq, Hcb.
Qed.

Lemma task_step_accounted K a a' :
  0 < APP_DATA_BUF_SIZE K ->
  task_step K a a' ->
  app_wf K a ->
  pool_accounted (APP_DATA_BUF_NMBR K) a ->
  pool_accounted (APP_DATA_BUF_NMBR K) a'.
Proof.
  intros Hsize Hstep Hwf Hacc. destruct Hstep as
    [v a a' out H|d a d' a' out H|r a a' out H|r a a' out H
    |b r c a a' out H|e a a' out H|a a' out H|v a a' out H].
  - destruct (adc_update_accounted K v a Hsize Hwf Hacc) as (a2 & Hrun & Hacc2).
    rewrite H in Hrun. now injection Hrun as -> _.
  - eapply producer_frame_accounted; [eapply adc_reload_frame|]; eassumption.
  - destruct (app_update_total K r (APP_DATA_BUF_NMBR K) a Hwf)
      as (a2 & out2 & Hrun & _ & Hacc2).
    rewrite H in Hrun. injection Hrun as -> _. now apply Hacc2.
  - eapply producer_frame_accounted; [eapply bluetooth_update_frame|]; eassumption.
  - eapply producer_frame_accounted; [eapply vTaskConfig_init_frame|]; eassumption.
  - eapply producer_frame_accounted; [eapply vTaskConfig_iter_frame|]; eassumption.
  - eapply producer_frame_accounted; [eapply vTaskError_frame|]; eassumption.
  - eapply producer_frame_accounted; [eapply vTaskMPU_frame|]; eassumption.
Qed.

Lemma reachable_accounted K a :
  0 < APP_DATA_BUF_SIZE K ->
  reachable K a ->
  pool_accounted (APP_DATA_BUF_NMBR K) a.
Proof.
  intros Hsize Hr. induction Hr as [app|a a' Hr IH Hstep].
  - unfold pool_accounted, held. cbn. rewrite !app_nil_r. repeat split; reflexivity.
  - eapply task_step_accounted; try eassumption. now apply reachable_wf.
Qed.

(** X4.  Buffer accounting: in every state the system reaches between the
    turns of its tasks, no buffer is checked out on the consumer side, the
    producer side holds exactly the buffer in [current_buffer] (at most
    one), and Free, Queued and that buffer together are the
    [APP_DATA_BUF_NMBR] slots, each once: no buffer is lost or handed out
    twice. *)
Theorem pool_buffers_accounted K a :
  0 < APP_DATA_BUF_SIZE K ->
  reachable K a ->
  bq_consumer (data_queue a) = [] /\
  bq_producer (data_queue a) = held a /\
  Permutation (bq_free (data_queue a) ++ bq_queued (data_queue a) ++ held a)
    (seq 0 (APP_DATA_BUF_NMBR K)) /\
  NoDup (bq_free (data_queue a) ++ bq_queued (data_queue a) ++ held a) /\
  (length (bq_free (data_queue a)) + length (bq_queued (data_queue a)) +
     length (held a) = APP_DATA_BUF_NMBR K)%nat.
Proof.
  intros Hsize Hr.
  destruct (reachable_accounted K a Hsize Hr) as (Hco & Hpr & Hperm).
  split; [assumption|]. split; [assumption|]. split; [assumption|]. split.
  - rewrite Hperm. apply NoDup_seq.
  - apply Permutation_length in Hperm.
    rewrite !length_app, length_seq in Hperm. lia.
Qed.

Lemma pool_buffers_accounted_witness :
  0 < APP_DATA_BUF_SIZE scenario_h /\
  reachable scenario_h scenario_start /\
  bq_consumer (data_queue scenario_start) = [] /\
  bq_producer (data_queue scenario_start) = held scenario_start /\
  Permutation
    (bq_free (data_queue scenario_start) ++
     bq_queued (data_queue scenario_start) ++ held scenario_start)
    (seq 0 (APP_DATA_BUF_NMBR scenario_h)) /\
  NoDup
    (bq_free (data_queue scenario_start) ++
     bq_queued (data_queue scenario_start) ++ held scenario_start) /\
  (length (bq_free (data_queue scenario_start)) +
   length (bq_queued (data_queue scenario_start)) +
   length (held scenario_start) = APP_DATA_BUF_NMBR scenario_h)%nat.
Proof.
  split; [reflexivity|].
  split; [exact (reach_start scenario_h app_zeroed)|].
  apply (pool_buffers_accounted scenario_h scenario_start).
  - reflexivity.
  - exact (reach_start scenario_h app_zeroed).
Defined.

(** X5.  The consumer reads in bounds: in every reachable state a turn of the
    consumer ends normally; it forwards [APP_DATA_BUF_SIZE] values when a
    buffer is queued and none otherwise, and the state that follows is
    reachable again. *)
Theorem consumer_reads_in_bounds K r a :
  0 < APP_DATA_BUF_SIZE K ->
  reachable K a ->
  exists a' out,
    vTaskApp_iter K r a = Ok tt a' out /\
    length (forwarded out) =
      (match bq_queued (data_queue a) with
       | [] => 0%nat
       | _ :: _ => Z.to_nat (APP_DATA_BUF_SIZE K)
       end) /\
    reachable K a'.
Proof.
  intros Hsize Hr.
  destruct (app_update_total K r 0 a (reachable_wf K a Hsize Hr))
    as (a' & out & Hrun & Hlen & _).
  exists a', out. split; [assumption|]. split; [assumption|].
  apply (reach_step K a a' Hr). now apply (step_app_update K r a a' out).
Qed.

Lemma consumer_reads_in_bounds_witness :
  0 < APP_DATA_BUF_SIZE scenario_h /\
  reachable scenario_h scenario_start /\
  exists a' out,
    vTaskApp_iter scenario_h false scenario_start = Ok tt a' out /\
    length (forwarded out) =
      (match bq_queued (data_queue scenario_start) with
       | [] => 0%nat
       | _ :: _ => Z.to_nat (APP_DATA_BUF_SIZE scenario_h)
       end) /\
    reachable scenario_h a'.
Proof.
  split; [reflexivity|].
  split; [exact (reach_start scenario_h app_zeroed)|].
  apply (consumer_reads_in_bounds scenario_h false scenario_start).
  - reflexivity.
  - exact (reach_start scenario_h app_zeroed).
Defined.

(** ** Producer and consumer together *)

(** X6.  From producer to consumer: with nothing Queued, the buffer the
    producer fills in [APP_DATA_BUF_SIZE] turns is the one the consumer's next
    turn acquires; the consumer forwards the low byte of every ADC value, in
    reading order, each multiplied by the first component of the vector it
    holds after reading the mailbox, and the buffer ends at the back of
    Free. *)
Theorem produced_buffer_is_forwarded K vs r a b rest bytes :
  0 < APP_DATA_BUF_SIZE K ->
  length vs = Z.to_nat (APP_DATA_BUF_SIZE K) ->
  current_buffer a = None ->
  bq_free (data_queue a) = b :: rest ->
  bq_queued (data_queue a) = [] ->
  buffer_queue_mem a !! b = Some bytes ->
  length bytes = Z.to_nat (APP_DATA_BUF_SIZE K) ->
  exists a1 a2 out,
    iterate (adc_update K) vs a = Ok tt a1 [] /\
    app_update K r a1 = Ok tt a2 out /\
    accel a2 = match items (queue_mpu a) with [] => accel a | v :: _ => v end /\
    forwarded out =
      map (fun v => float_mul (float_of_Z (v mod 256)) (fst (fst (accel a2)))) vs /\
    bq_free (data_queue a2) = rest ++ [b] /\
    bq_queued (data_queue a2) = [].
Proof.
  intros Hsize Hvs Hcb Hfree Hq Hmem Hlen.
  destruct a as [[fr qu pr co] cb n c sd ac q s1 s2 s3 b1 b2 b3 b4 mem].
  cbn in Hcb, Hfree, Hq, Hmem. subst cb fr qu.
  pose proof (adc_fill_fresh K vs rest [] pr co b n c sd ac q s1 s2 s3
                b1 b2 b3 b4 mem bytes Hsize Hvs Hmem Hlen) as Hfill.
  cbn [app] in Hfill.
  match type of Hfill with _ = Ok tt ?s [] => set (a1 := s) in * end.
  assert (Hmem1 : buffer_queue_mem a1 !! b = Some (map (fun v => v mod 256) vs)).
  { subst a1. cbn. apply list_lookup_insert_eq. eapply lookup_lt_Some; eassumption. }
  destruct (app_update_full K r a1 b [] (map (fun v => v mod 256) vs))
    as (a2 & out & Hrun & Hacc & Hfw & _ & _ & _ & Hdq & _);
    [reflexivity|assumption|now rewrite length_map|].
  exists a1, a2, out. split; [assumption|]. split; [assumption|].
  split; [exact Hacc|]. split; [now rewrite Hfw, map_map|].
  rewrite Hdq. split; reflexivity.
Qed.

Lemma produced_buffer_is_forwarded_witness :
  0 < APP_DATA_BUF_SIZE scenario_h /\
  length (samples tagged 1) = Z.to_nat (APP_DATA_BUF_SIZE scenario_h) /\
  current_buffer scenario_start = None /\
  bq_free (data_queue scenario_start) = [0; 1; 2; 3]%nat /\
  bq_queued (data_queue scenario_start) = [] /\
  buffer_queue_mem scenario_start !! 0%nat = Some (replicate 8 0) /\
  length (replicate 8 0) = Z.to_nat (APP_DATA_BUF_SIZE scenario_h) /\
  exists a1 a2 out,
    iterate (adc_update scenario_h) (samples tagged 1) scenario_start = Ok tt a1 [] /\
    app_update scenario_h true a1 = Ok tt a2 out /\
    accel a2 = match items (queue_mpu scenario_start) with
               | [] => accel scenario_start
               | v :: _ => v
               end /\
    forwarded out =
      map (fun v => float_mul (float_of_Z (v mod 256)) (fst (fst (accel a2))))
        (samples tagged 1) /\
    bq_free (data_queue a2) = [1; 2; 3]%nat ++ [0%nat] /\
    bq_queued (data_queue a2) = [].
Proof.
  split; [reflexivity|]. split; [reflexivity|]. split; [reflexivity|].
  split; [reflexivity|]. split; [reflexivity|]. split; [reflexivity|].
  split; [reflexivity|].
  apply (produced_buffer_is_forwarded scenario_h (samples tagged 1) true
           scenario_start 0%nat [1; 2; 3]%nat (replicate 8 0)); reflexivity.
Defined.

(** A byte times 1.0 is the byte. *)
Lemma byte_times_one v :
  0 <= v < 256 -> float_mul (float_of_Z v) float_one = float_of_Z v.
Proof.
  intros Hv.
  assert (Hall : forallb (fun n =>
            match float_mul (float_of_Z (Z.of_nat n)) float_one,
                  float_of_Z (Z.of_nat n) with
            | S754_zero s, S754_zero s' => Bool.eqb s s'
            | S754_finite s m e, S754_finite s' m' e' =>
                Bool.eqb s s' && Pos.eqb m m' && Z.eqb e e'
            | _, _ => false
            end) (seq 0 256) = true) by (vm_compute; reflexivity).
  rewrite forallb_forall in Hall.
  specialize (Hall (Z.to_nat v)). rewrite Z2Nat.id in Hall by lia.
  assert (Hin : In (Z.to_nat v) (seq 0 256)) by (apply in_seq; lia).
  specialize (Hall Hin).
  destruct (float_mul (float_of_Z v) float_one) as [s| | |s m e],
           (float_of_Z v) as [s'| | |s' m' e']; try discriminate.
  - apply Bool.eqb_prop in Hall. now subst.
  - apply andb_prop in Hall as [Hall He]. apply andb_prop in Hall as [Hs Hm].
    apply Bool.eqb_prop in Hs. apply Pos.eqb_eq in Hm. apply Z.eqb_eq in He.
    now subst.
Qed.

(** X7.  Unit scale: when the vector waiting in the mailbox has 1.0 as its
    first component, the consumer's turn takes it and forwards every byte of
    the buffer as the float of the same value. *)
Theorem unit_scale_forwards_raw K r a b rest bytes y z others :
  items (queue_mpu a) = (float_one, y, z) :: others ->
  bq_queued (data_queue a) = b :: rest ->
  buffer_queue_mem a !! b = Some bytes ->
  length bytes = Z.to_nat (APP_DATA_BUF_SIZE K) ->
  Forall (fun v => 0 <= v < 256) bytes ->
  exists a' out,
    app_update K r a = Ok tt a' out /\
    accel a' = (float_one, y, z) /\
    forwarded out = map float_of_Z bytes.
Proof.
  intros Hmail Hq Hmem Hlen Hbytes.
  destruct (app_update_full K r a b rest bytes Hq Hmem Hlen)
    as (a' & out & Hrun & Hacc & Hfw & _).
  rewrite Hmail in Hacc.
  exists a', out. split; [assumption|]. split; [assumption|].
  rewrite Hfw, Hacc. cbn [fst]. clear -Hbytes.
  induction Hbytes as [|v l Hv _ IH]; simpl; [reflexivity|].
  now rewrite byte_times_one, IH.
Qed.

Lemma unit_scale_forwards_raw_witness :
  items (queue_mpu scenario_one_full_unit) =
    (float_one, float_of_Z 2, float_of_Z 3) :: [] /\
  bq_queued (data_queue scenario_one_full_unit) = [0%nat] /\
  buffer_queue_mem scenario_one_full_unit !! 0%nat = Some (repeat 10 8) /\
  length (repeat 10 8) = Z.to_nat (APP_DATA_BUF_SIZE scenario_h) /\
  Forall (fun v => 0 <= v < 256) (repeat 10 8) /\
  exists a' out,
    app_update scenario_h true scenario_one_full_unit = Ok tt a' out /\
    accel a' = (float_one, float_of_Z 2, float_of_Z 3) /\
    forwarded out = map float_of_Z (repeat 10 8).
Proof.
  assert (Hb : Forall (fun v => 0 <= v < 256) (repeat 10 8)).
  { simpl. repeat constructor; lia. }
  split; [reflexivity|]. split; [reflexivity|]. split; [reflexivity|].
  split; [reflexivity|]. split; [exact Hb|].
  apply (unit_scale_forwards_raw scenario_h true scenario_one_full_unit 0%nat []
           (repeat 10 8) (float_of_Z 2) (float_of_Z 3) []); try reflexivity.
  exact Hb.
Defined.

(** ** The mailbox and the semaphores across turns *)

Lemma app_forward_inv K b mult n : forall i a a' out,
  app_forward K b mult i n a = Ok tt a' out -> a' = a.
Proof.
  induction n as [|n IH]; intros i a a' out H.
  - now injection H as <- _.
  - cbn [app_forward] in H. unfold bind, buf_load, bluetooth_write, emit in H.
    destruct ((0 <=? i) && (i <? APP_DATA_BUF_SIZE K)); [|discriminate].
    destruct (buffer_queue_mem a !! b) as [bytes|]; [|discriminate].
    destruct (bytes !! Z.to_nat i) as [v|]; [|discriminate].
    destruct (app_forward K b mult (i + 1) n a) as [u s o|] eqn:E; [|discriminate].
    destruct u. apply IH in E. subst s. now injection H as <- _.
Qed.

(** What a turn of the consumer does to the mailbox and to its vector,
    whatever else it does. *)
Lemma app_update_mailbox K r a a' out :
  app_update K r a = Ok tt a' out ->
  accel a' = match items (queue_mpu a) with [] => accel a | v :: _ => v end /\
  queue_mpu a' = mkQueue (uxLength (queue_mpu a)) (tl (items (queue_mpu a))) /\
  config a' = config a /\
  config_sd_present a' = config_sd_present a /\
  semaphore_config a' = semaphore_config a /\
  buffer_queue_mem a' = buffer_queue_mem a.
Proof.
  destruct a as [[fr qu pr co] cb n c sd ac [cap its] s1 s2 s3 b1 b2 b3 b4 mem].
  task_cbv. cbv [xQueueReceive items uxLength fst].
  destruct its as [|v0 its]; destruct qu as [|b qu]; cbv beta iota;
    try (intros [= <- <-]; repeat split; reflexivity);
    (match goal with
     | |- context [app_forward ?k ?b0 ?m ?i ?n0 ?s] =>
         destruct (app_forward k b0 m i n0 s) as [[] s' o|] eqn:E; [|discriminate];
         apply app_forward_inv in E; subst s'
     end);
    repeat match goal with
           | |- context [if ?c then _ else _] => destruct c
           | |- context [match remove_first ?x ?l with _ => _ end] =>
               destruct (remove_first x l)
           end;
    cbv beta iota; intros [= <- <-]; repeat split; reflexivity.
Qed.

(** X8.  Last known vector: a vector sent to the empty mailbox is taken by
    the consumer's next turn, which leaves the mailbox empty; the turn after
    that finds nothing new and goes on with the same vector. *)
Theorem consumer_keeps_last_vector K v r1 r2 a :
  0 < APP_DATA_BUF_SIZE K ->
  reachable K a ->
  uxLength (queue_mpu a) = 1%nat ->
  items (queue_mpu a) = [] ->
  exists a1 a2 a3 o2 o3,
    vTaskMPU_iter v a = Ok tt a1 [] /\
    app_update K r1 a1 = Ok tt a2 o2 /\
    app_update K r2 a2 = Ok tt a3 o3 /\
    accel a2 = v /\
    items (queue_mpu a2) = [] /\
    accel a3 = v.
Proof.
  intros Hsize Hr Hcap Hempty.
  pose proof (reachable_wf K a Hsize Hr) as Hwf.
  destruct (vTaskMPU_iter v a) as [[] a1 o1|] eqn:Hsend; [|discriminate].
  assert (o1 = []) by (unfold vTaskMPU_iter, modify in Hsend; now injection Hsend).
  subst o1.
  assert (Hq1 : queue_mpu a1 = mkQueue 1 [v]).
  { unfold vTaskMPU_iter, modify in Hsend. injection Hsend as <-.
    destruct a as [dq cb n c sd ac [cap its] s1 s2 s3 b1 b2 b3 b4 mem].
    cbn in Hcap, Hempty. subst cap its. reflexivity. }
  pose proof (producer_frame_wf K a a1 (vTaskMPU_frame v a a1 [] Hsend) Hwf) as Hwf1.
  destruct (app_update_total K r1 0 a1 Hwf1) as (a2 & o2 & Hrun2 & _ & _).
  pose proof (app_update_wf K r1 a1 a2 o2 Hrun2 Hwf1) as Hwf2.
  destruct (app_update_total K r2 0 a2 Hwf2) as (a3 & o3 & Hrun3 & _ & _).
  destruct (app_update_mailbox K r1 a1 a2 o2 Hrun2) as (Hacc2 & Hq2 & _).
  destruct (app_update_mailbox K r2 a2 a3 o3 Hrun3) as (Hacc3 & _).
  rewrite Hq1 in Hacc2, Hq2. cbn in Hacc2, Hq2.
  rewrite Hq2 in Hacc3. cbn in Hacc3.
  exists a1, a2, a3, o2, o3. rewrite Hq2.
  repeat split; try assumption; congruence.
Qed.

Lemma consumer_keeps_last_vector_witness :
  0 < APP_DATA_BUF_SIZE scenario_h /\
  reachable scenario_h scenario_start /\
  uxLength (queue_mpu scenario_start) = 1%nat /\
  items (queue_mpu scenario_start) = [] /\
  exists a1 a2 a3 o2 o3,
    vTaskMPU_iter mpu_reading_2 scenario_start = Ok tt a1 [] /\
    app_update scenario_h true a1 = Ok tt a2 o2 /\
    app_update scenario_h false a2 = Ok tt a3 o3 /\
    accel a2 = mpu_reading_2 /\
    items (queue_mpu a2) = [] /\
    accel a3 = mpu_reading_2.
Proof.
  split; [reflexivity|].
  split; [exact (reach_start scenario_h app_zeroed)|].
  split; [reflexivity|]. split; [reflexivity|].
  apply (consumer_keeps_last_vector scenario_h mpu_reading_2 true false
           scenario_start); try reflexivity.
  exact (reach_start scenario_h app_zeroed).
Defined.

(** X9.  A reply that came early: when a byte is received before the
    consumer's turn, the reply semaphore is pending, so the consumer's wait
    succeeds at once: although no reply follows the transmission, the error
    semaphore is not given; the pending reply is used up by that turn. *)
Theorem early_reply_masks_timeout K a b rest bytes :
  bq_queued (data_queue a) = b :: rest ->
  buffer_queue_mem a !! b = Some bytes ->
  length bytes = Z.to_nat (APP_DATA_BUF_SIZE K) ->
  exists a1 a2 out,
    vTaskBluetooth_iter true a = Ok tt a1 [EvSemaphoreGive SemReply] /\
    app_update K false a1 = Ok tt a2 out /\
    length (forwarded out) = Z.to_nat (APP_DATA_BUF_SIZE K) /\
    gives SemError out = 0%nat /\
    semaphore_error a2 = semaphore_error a /\
    semaphore_reply a2 = false.
Proof.
  intros Hq Hmem Hlen.
  set (a1 := set_semaphore SemReply true a).
  assert (Hbt : vTaskBluetooth_iter true a = Ok tt a1 [EvSemaphoreGive SemReply])
    by (destruct a; reflexivity).
  destruct (app_update_full K false a1 b rest bytes)
    as (a2 & out & Hrun & _ & Hfw & Hg & Herr & Hrep & _);
    [destruct a; exact Hq|destruct a; exact Hmem|assumption|].
  exists a1, a2, out. split; [assumption|]. split; [assumption|].
  split; [now rewrite Hfw, length_map|].
  assert (Hr1 : semaphore_reply a1 = true) by (destruct a; reflexivity).
  assert (He1 : semaphore_error a1 = semaphore_error a) by (destruct a; reflexivity).
  rewrite Hr1 in Hg, Herr. cbn in Hg, Herr.
  split; [assumption|]. split; [congruence|assumption].
Qed.

Lemma early_reply_masks_timeout_witness :
  bq_queued (data_queue scenario_one_full) = [0%nat] /\
  buffer_queue_mem scenario_one_full !! 0%nat = Some (repeat 10 8) /\
  length (repeat 10 8) = Z.to_nat (APP_DATA_BUF_SIZE scenario_h) /\
  exists a1 a2 out,
    vTaskBluetooth_iter true scenario_one_full =
      Ok tt a1 [EvSemaphoreGive SemReply] /\
    app_update scenario_h false a1 = Ok tt a2 out /\
    length (forwarded out) = Z.to_nat (APP_DATA_BUF_SIZE scenario_h) /\
    gives SemError out = 0%nat /\
    semaphore_error a2 = semaphore_error scenario_one_full /\
    semaphore_reply a2 = false.
Proof.
  split; [reflexivity|]. split; [reflexivity|]. split; [reflexivity|].
  apply (early_reply_masks_timeout scenario_h scenario_one_full 0%nat []
           (repeat 10 8)); reflexivity.
Defined.

(** ** The config task, poll by poll *)

(** One turn of the config task, in full. *)
Lemma config_iter_spec K e a :
  exists a' out,
    vTaskConfig_iter K e a = Ok tt a' out /\
    period a' =
      (if (poll_rate e >? 0) && (period a <? APP_ADC_MAX_RATE K) then period a + 1
       else if (poll_rate e <? 0) && (period a >? APP_ADC_MIN_RATE K) then period a - 1
       else period a) /\
    config_sd_present a' = config_sd_present a /\
    semaphore_config a' = (if poll_rate e =? 0 then semaphore_config a else true) /\
    config_writes out =
      (if negb (poll_rate e =? 0) && config_sd_present a then [period a'] else []) /\
    gives SemConfig out = (if poll_rate e =? 0 then 0%nat else 1%nat) /\
    messages out =
      (if negb (poll_rate e =? 0) && config_sd_present a && (poll_config_write e <? 0)
       then [config_write_error] else []) /\
    Forall (fun x => fst x = LED_3) (led_sets out) /\
    producer_frame a a' /\
    forwarded out = [] /\
    gives SemError out = 0%nat /\
    gives SemReply out = 0%nat.
Proof.
  destruct e as [[le lh] [re rh] u d w].
  destruct a as [dq cb n [p] sd ac q s1 s2 s3 b1 b2 b3 b4 mem].
  unfold vTaskConfig_iter, buttons_update, config_update, period, poll_rate,
    is_increase, is_decrease, producer_frame. run_task.
  destruct le, lh, re, rh; simpl;
    destruct (p <? APP_ADC_MAX_RATE K); simpl;
    destruct (p >? APP_ADC_MIN_RATE K); simpl;
    destruct sd; simpl; try destruct (w <? 0); simpl;
    do 2 eexists; (split; [reflexivity|]); simpl;
    repeat split; try reflexivity; repeat constructor.
Qed.

(** X10.  A poll without a release edge is inert: when neither button shows
    an edge with its level high, the config task leaves the period, the
    config-changed semaphore and everything the producer uses as they were;
    it calls neither [config_write] nor [messages_print], and the only calls
    it may make set LED_3. *)
Theorem config_poll_without_release_is_inert K e a :
  is_increase e = false ->
  is_decrease e = false ->
  exists a' out,
    vTaskConfig_iter K e a = Ok tt a' out /\
    period a' = period a /\
    semaphore_config a' = semaphore_config a /\
    config_writes out = [] /\
    gives SemConfig out = 0%nat /\
    messages out = [] /\
    Forall (fun x => fst x = LED_3) (led_sets out) /\
    producer_frame a a' /\
    forwarded out = [] /\
    gives SemError out = 0%nat /\
    gives SemReply out = 0%nat.
Proof.
  intros Hi Hd.
  destruct (config_iter_spec K e a)
    as (a' & out & Hrun & Hp & _ & Hs & Hw & Hg & Hm & Hl & Hf & Hfw & Hge & Hgr).
  unfold poll_rate in *. rewrite Hi, Hd in *. cbn in Hp, Hs, Hw, Hg, Hm.
  exists a', out. repeat split; try assumption; apply Hf.
Qed.

Lemma config_poll_without_release_is_inert_witness :
  is_increase press_edge = false /\
  is_decrease press_edge = false /\
  exists a' out,
    vTaskConfig_iter scenario_h press_edge scenario_config_start = Ok tt a' out /\
    period a' = period scenario_config_start /\
    semaphore_config a' = semaphore_config scenario_config_start /\
    config_writes out = [] /\
    gives SemConfig out = 0%nat /\
    messages out = [] /\
    Forall (fun x => fst x = LED_3) (led_sets out) /\
    producer_frame scenario_config_start a' /\
    forwarded out = [] /\
    gives SemError out = 0%nat /\
    gives SemReply out = 0%nat.
Proof.
  split; [reflexivity|]. split; [reflexivity|].
  apply (config_poll_without_release_is_inert scenario_h press_edge
           scenario_config_start); reflexivity.
Defined.

(** X11.  Both buttons released in the same poll: the right button is looked
    at last, so the period is raised (or stays at the maximum) and is never
    lowered. *)
Theorem simultaneous_release_raises K e a :
  is_increase e = true ->
  is_decrease e = true ->
  exists a' out,
    vTaskConfig_iter K e a = Ok tt a' out /\
    period a' =
      (if period a <? APP_ADC_MAX_RATE K then period a + 1 else period a) /\
    gives SemConfig out = 1%nat.
Proof.
  intros Hi Hd.
  destruct (config_iter_spec K e a) as (a' & out & Hrun & Hp & _ & _ & _ & Hg & _).
  unfold poll_rate in *. rewrite Hi in *. cbn in Hp, Hg.
  exists a', out. repeat split; assumption.
Qed.

Lemma simultaneous_release_raises_witness :
  is_increase both_released = true /\
  is_decrease both_released = true /\
  exists a' out,
    vTaskConfig_iter scenario_h both_released scenario_config_start = Ok tt a' out /\
    period a' =
      (if period scenario_config_start <? APP_ADC_MAX_RATE scenario_h
       then period scenario_config_start + 1
       else period scenario_config_start) /\
    gives SemConfig out = 1%nat.
Proof.
  split; [reflexivity|]. split; [reflexivity|].
  apply (simultaneous_release_raises scenario_h both_released
           scenario_config_start); reflexivity.
Defined.

(** X12.  A failed [config_write] is reported and nothing more: on a release
    edge with the SD card present and [config_write] returning a negative
    value, the error message is printed once, the new period is kept, the
    config-changed semaphore is given and the card is still taken as
    present for the next poll. *)
Theorem config_write_failure_not_fatal K e a :
  poll_rate e <> 0 ->
  config_sd_present a = true ->
  poll_config_write e < 0 ->
  exists a' out,
    vTaskConfig_iter K e a = Ok tt a' out /\
    messages out = [config_write_error] /\
    config_writes out = [period a'] /\
    period a' =
      (if (poll_rate e >? 0) && (period a <? APP_ADC_MAX_RATE K) then period a + 1
       else if (poll_rate e <? 0) && (period a >? APP_ADC_MIN_RATE K) then period a - 1
       else period a) /\
    semaphore_config a' = true /\
    config_sd_present a' = true.
Proof.
  intros Hrate Hsd Hw.
  destruct (config_iter_spec K e a)
    as (a' & out & Hrun & Hp & Hsd' & Hs & Hcw & _ & Hm & _).
  destruct (Z.eqb_spec (poll_rate e) 0) as [|_]; [contradiction|].
  destruct (Z.ltb_spec (poll_config_write e) 0); [|lia].
  rewrite Hsd in *. cbn in Hcw, Hm.
  exists a', out. repeat split; assumption.
Qed.

Lemma config_write_failure_not_fatal_witness :
  poll_rate increase_edge_sd_error <> 0 /\
  config_sd_present scenario_config_start = true /\
  poll_config_write increase_edge_sd_error < 0 /\
  exists a' out,
    vTaskConfig_iter scenario_h increase_edge_sd_error scenario_config_start
      = Ok tt a' out /\
    messages out = [config_write_error] /\
    config_writes out = [period a'] /\
    period a' =
      (if (poll_rate increase_edge_sd_error >? 0) &&
          (period scenario_config_start <? APP_ADC_MAX_RATE scenario_h)
       then period scenario_config_start + 1
       else if (poll_rate increase_edge_sd_error <? 0) &&
               (period scenario_config_start >? APP_ADC_MIN_RATE scenario_h)
            then period scenario_config_start - 1
            else period scenario_config_start) /\
    semaphore_config a' = true /\
    config_sd_present a' = true.
Proof.
  split; [vm_compute; discriminate|]. split; [reflexivity|]. split; [reflexivity|].
  apply (config_write_failure_not_fatal scenario_h increase_edge_sd_error
           scenario_config_start); [vm_compute; discriminate|reflexivity|reflexivity].
Defined.

Lemma pure_decrease_rate e : is_pure_decrease e = true -> poll_rate e = -1.
Proof.
  unfold is_pure_decrease, poll_rate. intros H. apply andb_prop in H as [Hi Hd].
  apply negb_true_iff in Hi. now rewrite Hi, Hd.
Qed.

Lemma config_iter_decrease K e a :
  is_pure_decrease e = true ->
  exists a' out,
    vTaskConfig_iter K e a = Ok tt a' out /\
    period a' = (if period a >? APP_ADC_MIN_RATE K then period a - 1 else period a) /\
    config_sd_present a' = config_sd_present a /\
    config_writes out = (if config_sd_present a then [period a'] else []) /\
    gives SemConfig out = 1%nat.
Proof.
  intros He. apply pure_decrease_rate in He.
  destruct (config_iter_spec K e a) as (a' & out & Hrun & Hp & Hsd & _ & Hw & Hg & _).
  rewrite He in *. cbn in Hp, Hw, Hg.
  exists a', out. repeat split; assumption.
Qed.

(** X13.  Decrease edges: release edges on the left button alone lower the
    period by one per edge until it reaches the minimum, where it stays;
    every edge, accepted or not, gives the config-changed semaphore and,
    with the SD card present, calls [config_write] with the period it leaves
    (no call without the card). *)
Theorem decrease_run_stops_at_min K envs : forall a,
  forallb is_pure_decrease envs = true ->
  APP_ADC_MIN_RATE K <= period a ->
  exists a' out,
    iterate (vTaskConfig_iter K) envs a = Ok tt a' out /\
    period a' = Z.max (period a - Z.of_nat (length envs)) (APP_ADC_MIN_RATE K) /\
    config_sd_present a' = config_sd_present a /\
    config_writes out =
      (if config_sd_present a
       then map (fun k => Z.max (period a - Z.of_nat k) (APP_ADC_MIN_RATE K))
              (seq 1 (length envs))
       else []) /\
    gives SemConfig out = length envs.
Proof.
  induction envs as [|e envs IH]; intros a Hall Hle.
  - exists a, []. simpl. repeat split; try reflexivity.
    + lia.
    + now destruct (config_sd_present a).
  - simpl in Hall. apply andb_prop in Hall as [He Hall].
    destruct (config_iter_decrease K e a He) as (a1 & o1 & H1 & Hp1 & Hsd1 & Hw1 & Hg1).
    assert (Hp1' : period a1 = Z.max (period a - 1) (APP_ADC_MIN_RATE K)).
    { rewrite Hp1. destruct (Z.gtb_spec (period a) (APP_ADC_MIN_RATE K)); lia. }
    destruct (IH a1 Hall) as (a2 & o2 & H2 & Hp2 & Hsd2 & Hw2 & Hg2); [lia|].
    exists a2, (o1 ++ o2). split; [now apply iterate_cons with (s1 := a1)|].
    split; [rewrite Hp2, Hp1'; simpl length; lia|].
    split; [congruence|].
    split.
    + rewrite config_writes_app, Hw1, Hw2, Hsd1.
      destruct (config_sd_present a); [|reflexivity].
      simpl length. simpl seq. simpl map. cbn [app]. f_equal.
      * rewrite Hp1'. lia.
      * rewrite <- (seq_shift (length envs) 1), map_map. apply map_ext. intros k.
        rewrite Hp1'. lia.
    + rewrite gives_app, Hg1, Hg2. reflexivity.
Qed.

Lemma decrease_run_stops_at_min_witness :
  forallb is_pure_decrease (repeat decrease_edge 3) = true /\
  APP_ADC_MIN_RATE scenario_h <= period scenario_config_start /\
  exists a' out,
    iterate (vTaskConfig_iter scenario_h) (repeat decrease_edge 3)
      scenario_config_start = Ok tt a' out /\
    period a' =
      Z.max (period scenario_config_start -
             Z.of_nat (length (repeat decrease_edge 3)))
        (APP_ADC_MIN_RATE scenario_h) /\
    config_sd_present a' = config_sd_present scenario_config_start /\
    config_writes out =
      (if config_sd_present scenario_config_start
       then map (fun k => Z.max (period scenario_config_start - Z.of_nat k)
                            (APP_ADC_MIN_RATE scenario_h))
              (seq 1 (length (repeat decrease_edge 3)))
       else []) /\
    gives SemConfig out = length (repeat decrease_edge 3).
Proof.
  split; [reflexivity|]. split; [vm_compute; discriminate|].
  apply (decrease_run_stops_at_min scenario_h (repeat decrease_edge 3)
           scenario_config_start); [reflexivity|vm_compute; discriminate].
Defined.

(** X14.  Up then down: from a period below the maximum and not below the
    minimum, an increase edge followed by a decrease edge brings the period
    back to where it was, with two gives of the config-changed semaphore. *)
Theorem increase_then_decrease_restores K e1 e2 a :
  is_increase e1 = true ->
  is_pure_decrease e2 = true ->
  APP_ADC_MIN_RATE K <= period a < APP_ADC_MAX_RATE K ->
  exists a' out,
    iterate (vTaskConfig_iter K) [e1; e2] a = Ok tt a' out /\
    period a' = period a /\
    gives SemConfig out = 2%nat.
Proof.
  intros H1 H2 Hr.
  destruct (config_iter_increase K e1 a H1) as (a1 & o1 & Hrun1 & Hp1 & _ & _ & Hg1).
  destruct (config_iter_decrease K e2 a1 H2) as (a2 & o2 & Hrun2 & Hp2 & _ & _ & Hg2).
  exists a2, (o1 ++ o2 ++ []). split.
  - apply iterate_cons with (s1 := a1); [assumption|].
    apply iterate_cons with (s1 := a2); [assumption|reflexivity].
  - rewrite !gives_app, Hg1, Hg2. split; [|reflexivity].
    rewrite Hp2, Hp1.
    destruct (Z.ltb_spec (period a) (APP_ADC_MAX_RATE K)); [|lia].
    destruct (Z.gtb_spec (period a + 1) (APP_ADC_MIN_RATE K)); lia.
Qed.

Lemma increase_then_decrease_restores_witness :
  is_increase increase_edge = true /\
  is_pure_decrease decrease_edge = true /\
  APP_ADC_MIN_RATE scenario_h <= period scenario_config_start
    < APP_ADC_MAX_RATE scenario_h /\
  exists a' out,
    iterate (vTaskConfig_iter scenario_h) [increase_edge; decrease_edge]
      scenario_config_start = Ok tt a' out /\
    period a' = period scenario_config_start /\
    gives SemConfig out = 2%nat.
Proof.
  split; [reflexivity|]. split; [reflexivity|].
  split; [vm_compute; split; [discriminate|reflexivity]|].
  apply (increase_then_decrease_restores scenario_h increase_edge decrease_edge
           scenario_config_start); try reflexivity.
  vm_compute; split; [discriminate|reflexivity].
Defined.

Lemma config_run_without_sd K envs : forall a,
  config_sd_present a = false ->
  exists a' out,
    iterate (vTaskConfig_iter K) envs a = Ok tt a' out /\
    config_sd_present a' = false /\
    config_writes out = [] /\
    messages out = [].
Proof.
  induction envs as [|e envs IH]; intros a Hsd.
  - exists a, []. repeat split; [assumption].
  - destruct (config_iter_spec K e a)
      as (a1 & o1 & H1 & _ & Hsd1 & _ & Hw1 & _ & Hm1 & _).
    rewrite Hsd in *. rewrite andb_false_r in Hw1, Hm1. cbn in Hm1.
    destruct (IH a1 Hsd1) as (a2 & o2 & H2 & Hsd2 & Hw2 & Hm2).
    exists a2, (o1 ++ o2). split; [now apply iterate_cons with (s1 := a1)|].
    split; [assumption|].
    rewrite config_writes_app, Hw1, Hw2. split; [reflexivity|].
    clear -Hm1 Hm2. induction o1 as [|x o1 IHo]; [assumption|].
    destruct x; cbn in *; try (now apply IHo); discriminate.
Qed.

(** X15.  No card, no writes: when [config_init] fails, vTaskConfig prints
    the error and the period 0, starts from period 0 with the card marked
    absent, and from then on no poll, whatever the buttons do, calls
    [config_write] or prints an error. *)
Theorem config_init_failure_disables_persistence K btn r c polls a :
  r < 0 ->
  exists a0 o0 a' out,
    vTaskConfig_init btn r c a = Ok tt a0 o0 /\
    period a0 = 0 /\
    config_sd_present a0 = false /\
    messages o0 = [config_init_error; "Sample period: "%string; "0"%string; nl_cr] /\
    led_sets o0 = [(LED_2, true); (LED_2, false)] /\
    iterate (vTaskConfig_iter K) polls a0 = Ok tt a' out /\
    config_sd_present a' = false /\
    config_writes out = [] /\
    messages out = [].
Proof.
  intros Hr.
  assert (Hinit : exists a0 o0,
    vTaskConfig_init btn r c a = Ok tt a0 o0 /\
    period a0 = 0 /\
    config_sd_present a0 = false /\
    messages o0 = [config_init_error; "Sample period: "%string; "0"%string; nl_cr] /\
    led_sets o0 = [(LED_2, true); (LED_2, false)]).
  { destruct a as [dq cb n c0 sd ac q s1 s2 s3 b1 b2 b3 b4 mem].
    unfold vTaskConfig_init, period. run_task.
    destruct (Z.ltb_spec r 0); [|lia]. simpl.
    do 2 eexists. split; [reflexivity|]. repeat split; reflexivity. }
  destruct Hinit as (a0 & o0 & Hrun0 & Hp0 & Hsd0 & Hm0 & Hl0).
  destruct (config_run_without_sd K polls a0 Hsd0) as (a' & out & Hrun & Hsd & Hw & Hm).
  exists a0, o0, a', out. repeat split; assumption.
Qed.

Lemma config_init_failure_disables_persistence_witness :
  -1 < 0 /\
  exists a0 o0 a' out,
    vTaskConfig_init (mkDebouncer false false) (-1) (mkConfig 7) scenario_start
      = Ok tt a0 o0 /\
    period a0 = 0 /\
    config_sd_present a0 = false /\
    messages o0 = [config_init_error; "Sample period: "%string; "0"%string; nl_cr] /\
    led_sets o0 = [(LED_2, true); (LED_2, false)] /\
    iterate (vTaskConfig_iter scenario_h) (repeat increase_edge 3) a0 = Ok tt a' out /\
    config_sd_present a' = false /\
    config_writes out = [] /\
    messages out = [].
Proof.
  split; [reflexivity|].
  apply (config_init_failure_disables_persistence scenario_h
           (mkDebouncer false false) (-1) (mkConfig 7) (repeat increase_edge 3)
           scenario_start).
  reflexivity.
Defined.

(** X16.  From the config task to the producer: after a poll with a release
    edge the producer's next reload takes the config-changed semaphore and
    returns the delay for the period the poll left, whatever delay it had;
    the reload after that finds no signal and keeps the delay it is given. *)
Theorem config_change_reaches_producer_once K e d d' a :
  poll_rate e <> 0 ->
  exists a1 out a2,
    vTaskConfig_iter K e a = Ok tt a1 out /\
    adc_reload_config K d a1 =
      Ok (pdMS_TO_TICKS K ((period a1 + 1) * 10 * DBG_PERIOD_MULTIPLIER)) a2 [] /\
    period a2 = period a1 /\
    adc_reload_config K d' a2 = Ok d' a2 [].
Proof.
  intros Hrate.
  destruct (config_iter_spec K e a) as (a1 & out & Hrun & _ & _ & Hs & _).
  destruct (Z.eqb_spec (poll_rate e) 0) as [|_]; [contradiction|].
  exists a1, out, (set_semaphore SemConfig false a1).
  split; [assumption|].
  destruct a1 as [dq cb n c sd ac q s1 s2 s3 b1 b2 b3 b4 mem].
  cbn in Hs. subst s1. repeat split; reflexivity.
Qed.

Lemma config_change_reaches_producer_once_witness :
  poll_rate increase_edge <> 0 /\
  exists a1 out a2,
    vTaskConfig_iter scenario_h increase_edge scenario_config_start = Ok tt a1 out /\
    adc_reload_config scenario_h 10 a1 =
      Ok (pdMS_TO_TICKS scenario_h ((period a1 + 1) * 10 * DBG_PERIOD_MULTIPLIER))
        a2 [] /\
    period a2 = period a1 /\
    adc_reload_config scenario_h 20 a2 = Ok 20 a2 [].
Proof.
  split; [vm_compute; discriminate|].
  apply (config_change_reaches_producer_once scenario_h increase_edge 10 20
           scenario_config_start).
  vm_compute; discriminate.
Defined.

(** X17.  First in, first out: when the producer fills two buffers in a row
    and nothing else was queued, the consumer's next two turns forward the
    samples of the first buffer and then those of the second, each scaled by
    the first component of the vector the consumer holds in that turn. *)
Theorem buffers_are_forwarded_in_order K vs1 vs2 r r' a b1 b2 rest bytes1 bytes2 :
  0 < APP_DATA_BUF_SIZE K ->
  length vs1 = Z.to_nat (APP_DATA_BUF_SIZE K) ->
  length vs2 = Z.to_nat (APP_DATA_BUF_SIZE K) ->
  current_buffer a = None ->
  bq_free (data_queue a) = b1 :: b2 :: rest ->
  bq_queued (data_queue a) = [] ->
  b1 <> b2 ->
  buffer_queue_mem a !! b1 = Some bytes1 ->
  buffer_queue_mem a !! b2 = Some bytes2 ->
  length bytes1 = Z.to_nat (APP_DATA_BUF_SIZE K) ->
  length bytes2 = Z.to_nat (APP_DATA_BUF_SIZE K) ->
  exists a1 a2 a3 a4 o3 o4,
    iterate (adc_update K) vs1 a = Ok tt a1 [] /\
    iterate (adc_update K) vs2 a1 = Ok tt a2 [] /\
    app_update K r a2 = Ok tt a3 o3 /\
    app_update K r' a3 = Ok tt a4 o4 /\
    forwarded o3 =
      map (fun v => float_mul (float_of_Z (v mod 256)) (fst (fst (accel a3)))) vs1 /\
    forwarded o4 =
      map (fun v => float_mul (float_of_Z (v mod 256)) (fst (fst (accel a4)))) vs2 /\
    bq_free (data_queue a4) = rest ++ [b1; b2] /\
    bq_queued (data_queue a4) = [].
Proof.
  intros Hsize Hvs1 Hvs2 Hcb Hfree Hq Hne Hm1 Hm2 Hl1 Hl2.
  destruct a as [[fr qu pr co] cb n c sd ac q s1 s2 s3 b1' b2' b3 b4 mem].
  cbn in Hcb, Hfree, Hq, Hm1, Hm2. subst cb fr qu.
  pose proof (adc_fill_fresh K vs1 (b2 :: rest) [] pr co b1 n c sd ac q s1 s2 s3
                b1' b2' b3 b4 mem bytes1 Hsize Hvs1 Hm1 Hl1) as Hfill1.
  cbn [app] in Hfill1.
  set (mem1 := <[b1 := map (fun v => v mod 256) vs1]> mem) in *.
  assert (Hm2' : mem1 !! b2 = Some bytes2).
  { subst mem1. now rewrite list_lookup_insert_ne. }
  pose proof (adc_fill_fresh K vs2 rest [b1] pr co b2 (APP_DATA_BUF_SIZE K)
                c sd ac q s1 s2 s3 b1' b2' b3 b4 mem1 bytes2 Hsize Hvs2 Hm2' Hl2)
    as Hfill2.
  cbn [app] in Hfill2.
  set (mem2 := <[b2 := map (fun v => v mod 256) vs2]> mem1) in *.
  match type of Hfill2 with _ = Ok tt ?s [] => set (st2 := s) in * end.
  assert (Hb1 : buffer_queue_mem st2 !! b1 = Some (map (fun v => v mod 256) vs1)).
  { subst st2 mem2 mem1. cbn. rewrite list_lookup_insert_ne by congruence.
    apply list_lookup_insert_eq. eapply lookup_lt_Some; eassumption. }
  assert (Hb2 : buffer_queue_mem st2 !! b2 = Some (map (fun v => v mod 256) vs2)).
  { subst st2 mem2. cbn. apply list_lookup_insert_eq.
    eapply lookup_lt_Some; eassumption. }
  destruct (app_update_full K r st2 b1 [b2] (map (fun v => v mod 256) vs1))
    as (a3 & o3 & Hrun3 & _ & Hfw3 & _ & _ & _ & Hdq3 & Hmem3 & _);
    [reflexivity|assumption|now rewrite length_map|].
  destruct (app_update_full K r' a3 b2 [] (map (fun v => v mod 256) vs2))
    as (a4 & o4 & Hrun4 & _ & Hfw4 & _ & _ & _ & Hdq4 & _);
    [now rewrite Hdq3|now rewrite Hmem3|now rewrite length_map|].
  eexists _, st2, a3, a4, o3, o4.
  split; [exact Hfill1|]. split; [exact Hfill2|].
  split; [assumption|]. split; [assumption|].
  split; [now rewrite Hfw3, map_map|]. split; [now rewrite Hfw4, map_map|].
  rewrite Hdq4, Hdq3. cbn. rewrite <- app_assoc. split; reflexivity.
Qed.

Lemma buffers_are_forwarded_in_order_witness :
  0 < APP_DATA_BUF_SIZE scenario_h /\
  length (samples tagged 1) = Z.to_nat (APP_DATA_BUF_SIZE scenario_h) /\
  length (samples tagged 2) = Z.to_nat (APP_DATA_BUF_SIZE scenario_h) /\
  current_buffer scenario_start = None /\
  bq_free (data_queue scenario_start) = [0; 1; 2; 3]%nat /\
  bq_queued (data_queue scenario_start) = [] /\
  0%nat <> 1%nat /\
  buffer_queue_mem scenario_start !! 0%nat = Some (replicate 8 0) /\
  buffer_queue_mem scenario_start !! 1%nat = Some (replicate 8 0) /\
  length (replicate 8 0) = Z.to_nat (APP_DATA_BUF_SIZE scenario_h) /\
  length (replicate 8 0) = Z.to_nat (APP_DATA_BUF_SIZE scenario_h) /\
  exists a1 a2 a3 a4 o3 o4,
    iterate (adc_update scenario_h) (samples tagged 1) scenario_start = Ok tt a1 [] /\
    iterate (adc_update scenario_h) (samples tagged 2) a1 = Ok tt a2 [] /\
    app_update scenario_h true a2 = Ok tt a3 o3 /\
    app_update scenario_h true a3 = Ok tt a4 o4 /\
    forwarded o3 =
      map (fun v => float_mul (float_of_Z (v mod 256)) (fst (fst (accel a3))))
        (samples tagged 1) /\
    forwarded o4 =
      map (fun v => float_mul (float_of_Z (v mod 256)) (fst (fst (accel a4))))
        (samples tagged 2) /\
    bq_free (data_queue a4) = [2; 3]%nat ++ [0; 1]%nat /\
    bq_queued (data_queue a4) = [].
Proof.
  split; [reflexivity|]. split; [reflexivity|]. split; [reflexivity|].
  split; [reflexivity|]. split; [reflexivity|]. split; [reflexivity|].
  split; [lia|].
  split; [reflexivity|]. split; [reflexivity|]. split; [reflexivity|].
  split; [reflexivity|].
  apply (buffers_are_forwarded_in_order scenario_h (samples tagged 1)
           (samples tagged 2) true true scenario_start 0%nat 1%nat [2; 3]%nat
           (replicate 8 0) (replicate 8 0)); try reflexivity.
  lia.
Defined.

(** ** The scale before the first vector *)

Lemma quiet_step_task_step K a a' : quiet_step K a a' -> task_step K a a'.
Proof.
  intros [v ? ? out H|d ? d' ? out H|r ? ? out H|r ? ? out H
         |b r c ? ? out H|e ? ? out H|? ? out H].
  - exact (step_adc_update K v _ _ out H).
  - exact (step_adc_reload K d _ d' _ out H).
  - exact (step_app_update K r _ _ out H).
  - exact (step_bluetooth_update K r _ _ out H).
  - exact (step_config_init K b r c _ _ out H).
  - exact (step_config K e _ _ out H).
  - exact (step_error K _ _ out H).
Qed.

Lemma mem_bytes_store mem b bytes i v :
  mem_bytes mem ->
  mem !! b = Some bytes ->
  mem_bytes (<[b := <[i := v mod 256]> bytes]> mem).
Proof.
  intros Hmem Hb. unfold mem_bytes in *.
  apply Forall_insert; [assumption|].
  apply Forall_insert.
  - rewrite Forall_lookup in Hmem. eapply Hmem; eassumption.
  - apply Z.mod_pos_bound. lia.
Qed.

(** A turn of the producer writes neither the vector nor the mailbox, and
    what it stores is a byte. *)
Lemma adc_update_quiet K v a :
  0 < APP_DATA_BUF_SIZE K ->
  app_wf K a ->
  exists a',
    adc_update K v a = Ok tt a' [] /\
    scale_frame a a' /\
    (mem_bytes (buffer_queue_mem a) -> mem_bytes (buffer_queue_mem a')).
Proof.
  intros Hsize (Hpool & Hmem & Hprod).
  destruct a as [[fr qu pr co] cb n c sd ac q s1 s2 s3 b1 b2 b3 b4 mem].
  cbn in Hpool, Hmem.
  assert (Hbytes : forall b, (b < length mem)%nat ->
            exists bytes, mem !! b = Some bytes /\
                          length bytes = Z.to_nat (APP_DATA_BUF_SIZE K)).
  { intros b Hb. destruct (lookup_lt_is_Some_2 mem b Hb) as [bytes Hl].
    exists bytes. split; [assumption|].
    unfold mem_wf in Hmem. rewrite Forall_lookup in Hmem. eapply Hmem; eassumption. }
  destruct cb as [b|].
  - destruct (Hprod b eq_refl) as [Hb Hn]. cbn in Hb, Hn.
    destruct (Hbytes b Hb) as (bytes & Hl & Hlen).
    rewrite (adc_update_held K v _ b n c sd ac q s1 s2 s3 b1 b2 b3 b4 mem bytes Hl Hn)
      by lia.
    destruct (n + 1 =? APP_DATA_BUF_SIZE K); eexists; (split; [reflexivity|]);
      (split; [split; reflexivity|]); cbn; intros Hm; now apply mem_bytes_store.
  - destruct fr as [|b fr].
    + destruct qu as [|b qu].
      * eexists. split; [reflexivity|]. split; [split; reflexivity|]. cbn. tauto.
      * rewrite adc_update_reclaim. eexists. split; [reflexivity|].
        split; [split; reflexivity|]. cbn. tauto.
    + assert (Hb : (b < length mem)%nat).
      { unfold pool_wf in Hpool. cbn in Hpool. now inversion Hpool. }
      destruct (Hbytes b Hb) as (bytes & Hl & Hlen).
      rewrite adc_update_take.
      rewrite (adc_update_held K v _ b 0 c sd ac q s1 s2 s3 b1 b2 b3 b4 mem bytes Hl)
        by (simpl; lia).
      destruct (0 + 1 =? APP_DATA_BUF_SIZE K); eexists; (split; [reflexivity|]);
        (split; [split; reflexivity|]); cbn; intros Hm; now apply mem_bytes_store.
Qed.

Lemma adc_reload_scale_frame K d a d' a' out :
  adc_reload_config K d a = Ok d' a' out -> scale_frame a a'.
Proof.
  destruct a as [dq cb n c sd ac q s1 s2 s3 b1 b2 b3 b4 mem].
  task_cbv. cbv [orb]. destruct s1; cbv beta iota; intros [= <- <- <-];
    split; reflexivity.
Qed.

Lemma bluetooth_update_scale_frame r a a' out :
  bluetooth_update r a = Ok tt a' out -> scale_frame a a'.
Proof.
  destruct a as [dq cb n c sd ac q s1 s2 s3 b1 b2 b3 b4 mem].
  task_cbv. destruct r; cbv beta iota; intros [= <- <-]; split; reflexivity.
Qed.

Lemma vTaskError_scale_frame a a' out :
  vTaskError_iter a = Ok tt a' out -> scale_frame a a'.
Proof.
  destruct a as [dq cb n c sd ac q s1 s2 s3 b1 b2 b3 b4 mem].
  task_cbv. cbv beta iota. intros [= <- <-]. split; reflexivity.
Qed.

Lemma vTaskConfig_init_scale_frame b r c0 a a' out :
  vTaskConfig_init b r c0 a = Ok tt a' out -> scale_frame a a'.
Proof.
  destruct a as [dq cb n c sd ac q s1 s2 s3 b1 b2 b3 b4 mem].
  task_cbv. destruct (r <? 0); cbv beta iota; intros [= <- <-]; split; reflexivity.
Qed.

Lemma vTaskConfig_iter_scale_frame K e a a' out :
  vTaskConfig_iter K e a = Ok tt a' out -> scale_frame a a'.
Proof.
  destruct a as [dq cb n [p] sd ac q s1 s2 s3 b1 b2 b3 b4 mem].
  destruct e as [[le lh] [re rh] u d w].
  unfold vTaskConfig_iter, buttons_update, config_update. run_task.
  destruct le, lh, re, rh; simpl;
    repeat match goal with
           | |- context [if ?c then _ else _] => destruct c; simpl
           end;
    intros [= <- <-]; split; reflexivity.
Qed.

Lemma scale_frame_untouched a a' :
  scale_frame a a' -> scale_untouched a -> scale_untouched a'.
Proof. intros [Ha Hq] [Hz He]. unfold scale_untouched. now rewrite Ha, Hq. Qed.

(** What holds for as long as vTaskMPU has sent nothing. *)
Lemma reachable_before_mpu_inv K a :
  0 < APP_DATA_BUF_SIZE K ->
  reachable_before_mpu K a ->
  app_wf K a /\ scale_untouched a /\ mem_bytes (buffer_queue_mem a).
Proof.
  intros Hsize Hr. induction Hr as [app|a a' Hr (Hwf & Hsc & Hmb) Hstep].
  - split; [apply app_start_wf|]. split; [split; reflexivity|].
    cbn. unfold mem_bytes. apply Forall_replicate, Forall_replicate. lia.
  - split; [exact (task_step_wf K a a' Hsize (quiet_step_task_step K a a' Hstep) Hwf)|].
    destruct Hstep as [v a a' out H|d a d' a' out H|r a a' out H|r a a' out H
                      |b r c a a' out H|e a a' out H|a a' out H].
    + destruct (adc_update_quiet K v a Hsize Hwf) as (a2 & Hrun & Hfr & Hm).
      rewrite H in Hrun. injection Hrun as -> _.
      split; [exact (scale_frame_untouched a a2 Hfr Hsc)|now apply Hm].
    + split; [exact (scale_frame_untouched a a' (adc_reload_scale_frame K d a d' a' out H) Hsc)|].
      destruct (adc_reload_frame K d a d' a' out H) as (_ & -> & _). assumption.
    + destruct (app_update_mailbox K r a a' out H) as (Hacc & Hq & _ & _ & _ & Hmem).
      destruct Hsc as [Hz He]. rewrite He in Hacc, Hq.
      split; [split; [congruence|now rewrite Hq]|now rewrite Hmem].
    + split; [exact (scale_frame_untouched a a' (bluetooth_update_scale_frame r a a' out H) Hsc)|].
      destruct (bluetooth_update_frame r a a' out H) as (_ & -> & _). assumption.
    + split; [exact (scale_frame_untouched a a' (vTaskConfig_init_scale_frame b r c a a' out H) Hsc)|].
      destruct (vTaskConfig_init_frame b r c a a' out H) as (_ & -> & _). assumption.
    + split; [exact (scale_frame_untouched a a' (vTaskConfig_iter_scale_frame K e a a' out H) Hsc)|].
      destruct (vTaskConfig_iter_frame K e a a' out H) as (_ & -> & _). assumption.
    + split; [exact (scale_frame_untouched a a' (vTaskError_scale_frame a a' out H) Hsc)|].
      destruct (vTaskError_frame a a' out H) as (_ & -> & _). assumption.
Qed.

(** Turns of the producer lead from a state in which vTaskMPU has sent
    nothing to another one. *)
Lemma reachable_before_mpu_adc K vs : forall a,
  reachable_before_mpu K a ->
  reachable_before_mpu K (run_from (iterate (adc_update K) vs) a).
Proof.
  assert (Hgen : forall a a' out,
            reachable_before_mpu K a ->
            iterate (adc_update K) vs a = Ok tt a' out ->
            reachable_before_mpu K a').
  { induction vs as [|v vs IH]; intros a a' out Hr H.
    - now injection H as <- _.
    - cbn [iterate] in H. unfold bind in H.
      destruct (adc_update K v a) as [[] a1 o1|] eqn:H1; [|discriminate].
      destruct (iterate (adc_update K) vs a1) as [[] a2 o2|] eqn:H2; [|discriminate].
      injection H as <- _.
      apply (IH a1 a2 o2); [|assumption].
      exact (quiet_next K a a1 Hr (quiet_adc_update K v a a1 o1 H1)). }
  intros a Hr. unfold run_from.
  destruct (iterate (adc_update K) vs a) as [[] a' out|] eqn:H; [|assumption].
  exact (Hgen a a' out Hr H).
Qed.

(** C6, amended: [app_init] sets [accel] to 0.0, and until vTaskMPU has sent
    a first vector nothing changes it: in every state the system reaches
    from [app_init] by turns of the other tasks, [accel] is (+0.0, +0.0,
    +0.0), and a turn of the consumer forwards +0.0 for every sample of the
    buffer it acquires, whatever the raw sample values (nothing when no
    buffer is queued). *)
Theorem scale_is_zero_before_first_vector K r a :
  0 < APP_DATA_BUF_SIZE K ->
  reachable_before_mpu K a ->
  accel a = (float_zero, float_zero, float_zero) /\
  exists a' out,
    app_update K r a = Ok tt a' out /\
    forwarded out =
      repeat float_zero
        (match bq_queued (data_queue a) with
         | [] => 0%nat
         | _ :: _ => Z.to_nat (APP_DATA_BUF_SIZE K)
         end) /\
    accel a' = (float_zero, float_zero, float_zero) /\
    reachable_before_mpu K a'.
Proof.
  intros Hsize Hr.
  destruct (reachable_before_mpu_inv K a Hsize Hr)
    as ((Hpool & Hmwf & Hprod) & (Hz & He) & Hmb).
  split; [assumption|].
  assert (Hrun : exists a' out,
    app_update K r a = Ok tt a' out /\
    forwarded out =
      repeat float_zero
        (match bq_queued (data_queue a) with
         | [] => 0%nat
         | _ :: _ => Z.to_nat (APP_DATA_BUF_SIZE K)
         end) /\
    accel a' = accel a).
  { destruct (bq_queued (data_queue a)) as [|b rest] eqn:Hq.
    - destruct (app_update_empty K r a Hq)
        as (a' & Hrun & _ & _ & _ & _ & _ & _ & _ & Hacc).
      rewrite He in Hacc. exists a', []. repeat split; assumption.
    - assert (Hb : (b < length (buffer_queue_mem a))%nat).
      { unfold pool_wf in Hpool. rewrite Hq in Hpool.
        rewrite !Forall_app, Forall_cons in Hpool. tauto. }
      destruct (lookup_lt_is_Some_2 _ _ Hb) as [bytes Hbytes].
      assert (Hlen : length bytes = Z.to_nat (APP_DATA_BUF_SIZE K)).
      { unfold mem_wf in Hmwf. rewrite Forall_lookup in Hmwf. eapply Hmwf; eassumption. }
      assert (Hrange : Forall (fun v => 0 <= v < 256) bytes).
      { unfold mem_bytes in Hmb. rewrite Forall_lookup in Hmb. eapply Hmb; eassumption. }
      apply (zero_scale_forwards_zero K r a b rest bytes); try assumption.
      now rewrite Hz. }
  destruct Hrun as (a' & out & Hrun & Hfw & Hacc).
  exists a', out. split; [assumption|]. split; [assumption|].
  split; [congruence|].
  exact (quiet_next K a a' Hr (quiet_app_update K r a a' out Hrun)).
Qed.

Lemma scale_is_zero_before_first_vector_witness :
  0 < APP_DATA_BUF_SIZE scenario_h /\
  reachable_before_mpu scenario_h scenario_one_full /\
  accel scenario_one_full = (float_zero, float_zero, float_zero) /\
  exists a' out,
    app_update scenario_h true scenario_one_full = Ok tt a' out /\
    forwarded out =
      repeat float_zero
        (match bq_queued (data_queue scenario_one_full) with
         | [] => 0%nat
         | _ :: _ => Z.to_nat (APP_DATA_BUF_SIZE scenario_h)
         end) /\
    accel a' = (float_zero, float_zero, float_zero) /\
    reachable_before_mpu scenario_h a'.
Proof.
  assert (Hr : reachable_before_mpu scenario_h scenario_one_full).
  { exact (reachable_before_mpu_adc scenario_h (repeat 10 8) scenario_start
             (quiet_start scenario_h app_zeroed)). }
  split; [reflexivity|]. split; [exact Hr|].
  apply (scale_is_zero_before_first_vector scenario_h true scenario_one_full).
  - reflexivity.
  - exact Hr.
Defined.
